(** * signature.js: signing a file and verifying the signature

    A shallow embedding of [src/publickey/signature/node/signature.js], the
    command line tool that signs a data file with a private key
    ([sign]) and checks such a signature with the public key ([verify]).

    The script is straight-line code over three services of its platform:
    the file system ([fs.readFile], [fs.writeFile]), the process
    ([console.log], [process.exit]) and the [crypto] module.  The file
    system and the process are modelled by a state-and-trace monad; the
    [crypto] module, whose code is not part of the repository, is a
    parameter ([Crypto]); the base64 codec of the platform's [Buffer] is
    modelled in [Base64], and its reading of a file as UTF-8 text in
    [utf8_decode]. *)

From Stdlib Require Import ZArith NArith List Bool Lia.
From Stdlib Require Import Strings.String Strings.Ascii Strings.Byte.
Import ListNotations.

Local Open Scope string_scope.

(** A [Buffer]: a flat sequence of bytes. *)
Definition bytes : Type := list byte.

(** Storing a number in a byte keeps its low eight bits. *)
Definition byte_of_N (n : N) : byte :=
  match Byte.of_N (N.land n 255) with
  | Some b => b
  | None => x00
  end.

(** The 256 bytes, in order. *)
Definition all_bytes : list byte :=
  List.map (fun n => byte_of_N (N.of_nat n)) (List.seq 0 256).

(** The numbers below [n], in order. *)
Definition below (n : nat) : list N := List.map N.of_nat (List.seq 0 n).

(** ** The base64 codec *)

Module Base64.

(** Modelled from the spec: the base64 codec of the platform's [Buffer],
    which the script only names (the ['base64'] argument of
    [signature.toString] and of [verifier.verify]).  The spec asks for
    the standard text-safe transform and names base64; [encode] is RFC
    4648 base64 with [=] padding, table and shifts as in the platform's
    encoder. *)
Definition alphabet : string :=
  "ABCDEFGHIJKLMNOPQRSTUVWXYZabcdefghijklmnopqrstuvwxyz0123456789+/".

Definition pad : ascii := "="%char.

Definition base64_char (n : N) : ascii :=
  match String.get (N.to_nat n) alphabet with
  | Some c => c
  | None => pad
  end.

(** The four sextets of a group of three bytes. *)
Definition enc1 (a : N) : N := N.shiftr a 2.
Definition enc2 (a b : N) : N :=
  N.lor (N.shiftl (N.land a 3) 4) (N.shiftr b 4).
Definition enc3 (b c : N) : N :=
  N.lor (N.shiftl (N.land b 15) 2) (N.shiftr c 6).
Definition enc4 (c : N) : N := N.land c 63.

Fixpoint encode_chars (s : bytes) : list ascii :=
  match s with
  | a :: b :: c :: rest =>
      let a := Byte.to_N a in
      let b := Byte.to_N b in
      let c := Byte.to_N c in
      base64_char (enc1 a) :: base64_char (enc2 a b)
        :: base64_char (enc3 b c) :: base64_char (enc4 c)
        :: encode_chars rest
  | [a; b] =>
      let a := Byte.to_N a in
      let b := Byte.to_N b in
      [base64_char (enc1 a); base64_char (enc2 a b);
       base64_char (N.shiftl (N.land b 15) 2); pad]
  | [a] =>
      let a := Byte.to_N a in
      [base64_char (enc1 a); base64_char (N.shiftl (N.land a 3) 4);
       pad; pad]
  | [] => []
  end.

Definition encode (s : bytes) : string :=
  string_of_list_ascii (encode_chars s).

(** The decoding half, as the platform applies it to a string handed
    over with ['base64'] (line 137).  This is the platform's decoder and
    not the [decode] of the spec (4.4), which fails with a codec error on
    text that is not an encoding: the platform's never fails.  The value
    of a character: the RFC 4648 alphabet, and [-] and [_] of the URL-safe
    alphabet for [+] and [/]; no value for any other character. *)
Definition unbase64 (c : ascii) : option N :=
  let n := N_of_ascii c in
  if (65 <=? n)%N && (n <=? 90)%N then Some (n - 65)%N
  else if (97 <=? n)%N && (n <=? 122)%N then Some (n - 71)%N
  else if (48 <=? n)%N && (n <=? 57)%N then Some (n + 4)%N
  else if (n =? 43)%N || (n =? 45)%N then Some 62%N
  else if (n =? 47)%N || (n =? 95)%N then Some 63%N
  else None.

(** The three bytes of a group of four sextets. *)
Definition dec1 (hi lo : N) : byte :=
  byte_of_N (N.lor (N.shiftl (N.land hi 63) 2) (N.shiftr (N.land lo 48) 4)).
Definition dec2 (hi lo : N) : byte :=
  byte_of_N (N.lor (N.shiftl (N.land hi 15) 4) (N.shiftr (N.land lo 60) 2)).
Definition dec3 (hi lo : N) : byte :=
  byte_of_N (N.lor (N.shiftl (N.land hi 3) 6) (N.land lo 63)).

(** The platform's decoder, where it departs from the spec's: it passes
    over every character that has no value, and it stops at the first
    [=]. *)
Fixpoint sextets (t : list ascii) : list N :=
  match t with
  | [] => []
  | c :: t' =>
      if Ascii.eqb c pad then []
      else match unbase64 c with
           | Some n => n :: sextets t'
           | None => sextets t'
           end
  end.

(** Four sextets give three bytes, as in RFC 4648; the platform's decoder
    also takes a last group of three for two bytes and of two for one
    byte (their spare low bits are dropped), and drops a single left-over
    sextet. *)
Fixpoint decode_sextets (l : list N) : bytes :=
  match l with
  | s1 :: s2 :: s3 :: s4 :: rest =>
      dec1 s1 s2 :: dec2 s2 s3 :: dec3 s3 s4 :: decode_sextets rest
  | [s1; s2; s3] => [dec1 s1 s2; dec2 s2 s3]
  | [s1; s2] => [dec1 s1 s2]
  | _ => []
  end.

(** The platform's decoding of a string handed over with ['base64'].  It
    never fails; on the text [encode] produces it is the inverse of
    [encode], which is what the round trip of the spec asks. *)
Definition decode (t : string) : bytes :=
  decode_sextets (sextets (list_ascii_of_string t)).

End Base64.

(** ** The platform: errors, files, console, process *)

(** What a failing service reports.  The script never looks inside an
    error: it only tests it for truthiness and prints it. *)
Inductive error : Type :=
| IOError (path : string)
| KeyParseError
| SigningError.

(** A JavaScript string: its UTF-16 code units. *)
Definition text : Type := list N.

(** What one invocation of the script can see of its surroundings: the
    readable files with their contents, the paths it may write to, and the
    randomness the operating system would hand to the process. *)
Record world : Type := {
  files : string -> option bytes;
  writable : string -> bool;
  entropy : N
}.

(** What one invocation does to its surroundings, in order.  A file read
    is recorded when its callback is called.  [LogError err] is the line
    [console.log("Error", err)] prints: the word and the platform's own
    rendering of the error object, which the model does not spell out. *)
Inductive event : Type :=
| Log (line : string)
| LogError (err : error)
| ReadFile (path : string) (err : option error)
| WriteFile (path : string) (content : string) (err : option error)
| SignFinal (algorithm : string) (data key : bytes) (res : error + bytes)
| VerifyFinal (algorithm : string) (data key : bytes) (signature : text)
    (res : error + bool).

(** How a chain of callbacks ends: it runs to its end (the event loop
    drains and the process ends normally), it calls [process.exit], or it
    throws and nothing catches the exception. *)
Inductive outcome (A : Type) : Type :=
| Returned (a : A)
| Exited (code : Z)
| Thrown (e : error).

Arguments Returned {A} a.
Arguments Exited {A} code.
Arguments Thrown {A} e.

Record run (A : Type) : Type := {
  trace : list event;
  final : world;
  result : outcome A
}.

Arguments trace {A} r.
Arguments final {A} r.
Arguments result {A} r.

(** The script nests its callbacks: each one runs after the operation it
    was given to has completed.  A computation takes the world and yields
    its events, the world it leaves and how it ended. *)
Definition M (A : Type) : Type := world -> run A.

Definition ret {A : Type} (a : A) : M A :=
  fun w => {| trace := []; final := w; result := Returned a |}.

Definition bind {A B : Type} (m : M A) (k : A -> M B) : M B :=
  fun w =>
    let r := m w in
    match result r with
    | Returned a =>
        let r' := k a (final r) in
        {| trace := (trace r ++ trace r')%list; final := final r'; result := result r' |}
    | Exited code => {| trace := trace r; final := final r; result := Exited code |}
    | Thrown e => {| trace := trace r; final := final r; result := Thrown e |}
    end.

Declare Scope js_scope.
Delimit Scope js_scope with js.
Notation "x <- m ;; k" := (bind m (fun x => k))
  (at level 61, m at next level, right associativity) : js_scope.
Notation "' p <- m ;; k" := (bind m (fun x => match x with p => k end))
  (at level 61, p pattern, m at next level, right associativity) : js_scope.
Notation "m ;; k" := (bind m (fun _ => k))
  (at level 61, right associativity) : js_scope.
Local Open Scope js_scope.

Definition emit (e : event) : M unit :=
  fun w => {| trace := [e]; final := w; result := Returned tt |}.

(** [console.log(a, b, ...)]: the arguments separated by one space. *)
Definition console_log (args : list string) : M unit :=
  emit (Log (String.concat " " args)).

(** [process.exit(code)]: nothing after it runs. *)
Definition process_exit {A : Type} (code : Z) : M A :=
  fun w => {| trace := []; final := w; result := Exited code |}.

(** The status the parent process sees: the low eight bits of the code
    given to [process.exit] (so 255 for -1), 0 when the callbacks ran to
    their end, and the platform's status for an uncaught exception, which
    is not zero (1 in current versions). *)
Definition exit_status {A : Type} (o : outcome A) : Z :=
  match o with
  | Returned _ => 0
  | Exited code => code mod 256
  | Thrown _ => 1
  end%Z.

(** [fs.readFile(path, callback)]: the callback gets an error or the
    contents. *)
Definition fs_readFile (path : string) : M (option error * bytes) :=
  fun w =>
    match files w path with
    | Some content =>
        {| trace := [ReadFile path None]; final := w;
           result := Returned (None, content) |}
    | None =>
        {| trace := [ReadFile path (Some (IOError path))]; final := w;
           result := Returned (Some (IOError path), []) |}
    end.

(** *** Text *)

(** Reading bytes as UTF-8, the way the platform does it (the decoder of
    the Encoding Standard): a well-formed sequence of one to four bytes
    gives its code point, and every maximal ill-formed run gives U+FFFD.
    After a lead byte the decoder needs one to three more bytes; the
    first of them is bounded by the lead byte. *)
Inductive utf8_range : Type :=
| R_80_BF
| R_A0_BF
| R_80_9F
| R_90_BF
| R_80_8F.

Definition range_lower (r : utf8_range) : N :=
  match r with
  | R_A0_BF => 160
  | R_90_BF => 144
  | _ => 128
  end.

Definition range_upper (r : utf8_range) : N :=
  match r with
  | R_80_9F => 159
  | R_80_8F => 143
  | _ => 191
  end.

Inductive utf8_state : Type :=
| Utf8_start
| Utf8_need (needed : nat) (cp : N) (r : utf8_range).

(** A byte met between characters. *)
Definition utf8_first (b : N) : list N * utf8_state :=
  if (b <=? 127)%N then ([b], Utf8_start)
  else if (194 <=? b)%N && (b <=? 223)%N then
    ([], Utf8_need 1 (N.land b 31) R_80_BF)
  else if (224 <=? b)%N && (b <=? 239)%N then
    ([], Utf8_need 2 (N.land b 15)
           (if (b =? 224)%N then R_A0_BF
            else if (b =? 237)%N then R_80_9F
            else R_80_BF))
  else if (240 <=? b)%N && (b <=? 244)%N then
    ([], Utf8_need 3 (N.land b 7)
           (if (b =? 240)%N then R_90_BF
            else if (b =? 244)%N then R_80_8F
            else R_80_BF))
  else ([65533%N], Utf8_start).

(** A byte met anywhere: inside a character it must be in range, or the
    character so far is replaced by U+FFFD and the byte is read again as
    one met between characters. *)
Definition utf8_step (st : utf8_state) (b : N) : list N * utf8_state :=
  match st with
  | Utf8_start => utf8_first b
  | Utf8_need needed cp r =>
      if (range_lower r <=? b)%N && (b <=? range_upper r)%N then
        let cp' := N.lor (N.shiftl cp 6) (N.land b 63) in
        match needed with
        | S (S n) => ([], Utf8_need (S n) cp' R_80_BF)
        | _ => ([cp'], Utf8_start)
        end
      else
        (65533%N :: fst (utf8_first b), snd (utf8_first b))
  end.

Fixpoint utf8_code_points (st : utf8_state) (s : bytes) : list N :=
  match s with
  | [] =>
      match st with
      | Utf8_start => []
      | Utf8_need _ _ _ => [65533%N]
      end
  | b :: rest =>
      (fst (utf8_step st (Byte.to_N b))
       ++ utf8_code_points (snd (utf8_step st (Byte.to_N b))) rest)%list
  end.

(** A code point in a string: one code unit, or a surrogate pair above
    U+FFFF. *)
Definition utf16 (cp : N) : list N :=
  if (cp <? 65536)%N then [cp]
  else [(55296 + N.shiftr (cp - 65536) 10)%N; (56320 + N.land (cp - 65536) 1023)%N].

Definition utf8_decode (s : bytes) : text :=
  flat_map utf16 (utf8_code_points Utf8_start s).

(** A string written out (by [console.log]): its code points in UTF-8, a
    surrogate without its partner as U+FFFD. *)
Fixpoint code_points (t : text) : list N :=
  match t with
  | [] => []
  | c :: rest =>
      if (55296 <=? c)%N && (c <=? 56319)%N then
        match rest with
        | lo :: rest' =>
            if (56320 <=? lo)%N && (lo <=? 57343)%N
            then (65536 + N.shiftl (c - 55296) 10 + (lo - 56320))%N
                   :: code_points rest'
            else 65533%N :: code_points rest
        | [] => [65533%N]
        end
      else if (56320 <=? c)%N && (c <=? 57343)%N then 65533%N :: code_points rest
      else c :: code_points rest
  end.

Definition utf8_bytes (cp : N) : list N :=
  if (cp <? 128)%N then [cp]
  else if (cp <? 2048)%N then
    [(192 + N.shiftr cp 6)%N; (128 + N.land cp 63)%N]
  else if (cp <? 65536)%N then
    [(224 + N.shiftr cp 12)%N; (128 + N.land (N.shiftr cp 6) 63)%N;
     (128 + N.land cp 63)%N]
  else
    [(240 + N.shiftr cp 18)%N; (128 + N.land (N.shiftr cp 12) 63)%N;
     (128 + N.land (N.shiftr cp 6) 63)%N; (128 + N.land cp 63)%N].

Definition utf8_encode (t : text) : string :=
  string_of_list_ascii (List.map ascii_of_N (flat_map utf8_bytes (code_points t))).

(** [fs.readFile(path, 'utf8', callback)]: the contents as text. *)
Definition fs_readFile_utf8 (path : string) : M (option error * text) :=
  ' (err, content) <- fs_readFile path ;;
  ret (err, utf8_decode content).

(** A string handed over with ['base64'] becomes bytes: the platform's
    decoder looks at the low byte of each code unit (so U+0141 reads as
    [A] and U+013D as [=]) and decodes what it sees. *)
Definition low_bytes (t : text) : string :=
  string_of_list_ascii (List.map (fun c => ascii_of_N (N.land c 255)) t).

Definition Buffer_from_base64 (t : text) : bytes :=
  Base64.decode (low_bytes t).

Definition update (f : string -> option bytes) (path : string) (content : bytes)
  : string -> option bytes :=
  fun p => if String.eqb path p then Some content else f p.

(** [fs.writeFile(path, text, callback)]: the file holds the bytes of the
    text, or the callback gets an error and the file is as before. *)
Definition fs_writeFile (path : string) (content : string) : M (option error) :=
  fun w =>
    if writable w path then
      {| trace := [WriteFile path content None];
         final := {| files := update (files w) path (list_byte_of_string content);
                     writable := writable w;
                     entropy := entropy w |};
         result := Returned None |}
    else
      {| trace := [WriteFile path content (Some (IOError path))]; final := w;
         result := Returned (Some (IOError path)) |}.

(** [buffer.toString('hex')]: two lower-case digits a byte. *)
Definition hex_digit (n : N) : ascii :=
  match String.get (N.to_nat n) "0123456789abcdef" with
  | Some c => c
  | None => "0"%char
  end.

Fixpoint hex (s : bytes) : string :=
  match s with
  | [] => ""
  | b :: rest =>
      String (hex_digit (N.shiftr (Byte.to_N b) 4))
        (String (hex_digit (N.land (Byte.to_N b) 15)) (hex rest))
  end.

(** The text ['\n']. *)
Definition LF : string := String "010"%char EmptyString.

(** [new Buffer(raw, 'binary')]: the same bytes in a buffer. *)
Definition Buffer_binary (raw : bytes) : bytes := raw.

(** ** The crypto module *)

(** The platform's signing and verification primitives; the repository
    holds none of their code.  [crypto_sign algorithm data key r] is what
    a signer created for [algorithm] and fed [data] returns from
    [sign(key)] when the process's randomness is [r]: the signature, or
    the error it throws.  [crypto_verify algorithm data key signature] is
    what a verifier created for [algorithm] and fed [data] returns from
    [verify(key, signature)]: a boolean, or the error it throws. *)
Record Crypto : Type := {
  crypto_sign : string -> bytes -> bytes -> N -> error + bytes;
  crypto_verify : string -> bytes -> bytes -> bytes -> error + bool
}.

(** The object [crypto.createSign] makes; [update] collects the data. *)
Record Sign : Type := { sign_algorithm : string; sign_data : bytes }.

Definition createSign (algorithm : string) : Sign :=
  {| sign_algorithm := algorithm; sign_data := [] |}.

Definition Sign_update (signer : Sign) (data : bytes) : Sign :=
  {| sign_algorithm := sign_algorithm signer;
     sign_data := (sign_data signer ++ data)%list |}.

(** The object [crypto.createVerify] makes. *)
Record Verify : Type := { verify_algorithm : string; verify_data : bytes }.

Definition createVerify (algorithm : string) : Verify :=
  {| verify_algorithm := algorithm; verify_data := [] |}.

Definition Verify_update (verifier : Verify) (data : bytes) : Verify :=
  {| verify_algorithm := verify_algorithm verifier;
     verify_data := (verify_data verifier ++ data)%list |}.

(** ** The script *)

(** Public: The single, agreed signature algorithm among participants. *)
Definition SIGNATURE_ALGORITHM : string := "RSA-SHA256".

Section Script.

Variable crypto : Crypto.

(** [signer.sign(privateKey)] *)
Definition Sign_sign (signer : Sign) (privateKey : bytes) : M bytes :=
  fun w =>
    let res := crypto_sign crypto (sign_algorithm signer) (sign_data signer)
                 privateKey (entropy w) in
    {| trace := [SignFinal (sign_algorithm signer) (sign_data signer) privateKey res];
       final := w;
       result := match res with
                 | inl e => Thrown e
                 | inr signature => Returned signature
                 end |}.

(** [verifier.verify(publicKey, signature, 'base64')]: the text is read
    as base64 and the bytes are checked. *)
Definition Verify_verify_base64 (verifier : Verify) (publicKey : bytes)
    (signature : text) : M bool :=
  fun w =>
    let res := crypto_verify crypto (verify_algorithm verifier)
                 (verify_data verifier) publicKey (Buffer_from_base64 signature) in
    {| trace := [VerifyFinal (verify_algorithm verifier) (verify_data verifier)
                   publicKey signature res];
       final := w;
       result := match res with
                 | inl e => Thrown e
                 | inr valid => Returned valid
                 end |}.

(** Private: Prints expected command line invocation and exits. *)
Definition usage : M unit :=
  console_log ["Usage:"] ;;
  console_log ["  node signature.js sign   [data file] [private key file] [signature output file]"] ;;
  console_log ["  node signature.js verify [data file] [signature file] [public key file]"] ;;
  process_exit (-1).

(** Private: Handle an error condition by printing it and exiting with a
    non-zero status. *)
Definition handleError (err : option error) : M unit :=
  match err with
  | Some e =>
      emit (LogError e) ;;
      process_exit (-1)
  | None => ret tt
  end.

(** Public: Use the private key to sign the given data. Save the
    signature in a file. *)
Definition sign (dataPath privateKeyPath signaturePath : string) : M unit :=
  console_log ["Loading data from '" ++ dataPath ++ "'"] ;;
  ' (err, data) <- fs_readFile dataPath ;;
  handleError err ;;
  console_log ["Loading data from '" ++ privateKeyPath ++ "'"] ;;
  ' (err, privateKey) <- fs_readFile privateKeyPath ;;
  handleError err ;;
  console_log ["Signing data"] ;;
  console_log [hex data; LF] ;;
  console_log ["Using private key"] ;;
  console_log [hex privateKey; LF] ;;
  let signer := createSign SIGNATURE_ALGORITHM in
  let signer := Sign_update signer data in
  raw <- Sign_sign signer privateKey ;;
  let signature := Buffer_binary raw in
  console_log ["Signature Bytes"] ;;
  console_log [hex signature; LF] ;;
  console_log ["Signature Encoded as Base64"] ;;
  let signature_b64 := Base64.encode signature in
  console_log [signature_b64; LF] ;;
  err <- fs_writeFile signaturePath signature_b64 ;;
  console_log ["Base64 Signature saved to '" ++ signaturePath ++ "'"].

Definition show_bool (b : bool) : string := if b then "true" else "false".

(** Public: Use the public key to check the signature of the given
    data. *)
Definition verify (dataPath signaturePath publicKeyPath : string) : M unit :=
  console_log ["Loading data from '" ++ dataPath ++ "'"] ;;
  ' (err, data) <- fs_readFile dataPath ;;
  handleError err ;;
  console_log ["Loading signature from '" ++ signaturePath ++ "'"] ;;
  ' (err, signature) <- fs_readFile_utf8 signaturePath ;;
  handleError err ;;
  console_log ["Loading public key from '" ++ publicKeyPath ++ "'"] ;;
  ' (err, publicKey) <- fs_readFile publicKeyPath ;;
  handleError err ;;
  console_log ["Verifying signature"] ;;
  console_log [utf8_encode signature; LF] ;;
  console_log ["Over data"] ;;
  console_log [hex data; LF] ;;
  console_log ["Using public key"] ;;
  console_log [hex publicKey; LF] ;;
  let verifier := createVerify SIGNATURE_ALGORITHM in
  let verifier := Verify_update verifier data in
  valid <- Verify_verify_base64 verifier publicKey signature ;;
  console_log ["Signature valid?"; show_bool valid] ;;
  process_exit (if valid then 0 else -1).

(** Private: Handle the program's command line arguments to call the
    appropriate functions. *)
Definition processArgs (argv : list string) : M unit :=
  if (List.length argv =? 6)%nat && String.eqb (List.nth 2 argv "") "sign" then
    sign (List.nth 3 argv "") (List.nth 4 argv "") (List.nth 5 argv "")
  else if (List.length argv =? 6)%nat && String.eqb (List.nth 2 argv "") "verify" then
    verify (List.nth 3 argv "") (List.nth 4 argv "") (List.nth 5 argv "")
  else
    usage.

(** A private key and a public key make a pair for the agreed algorithm
    when the primitive signs any data with the first and accepts the
    result with the second. *)
Definition key_pair (privateKey publicKey : bytes) : Prop :=
  forall (data : bytes) (r : N),
    exists signature,
      crypto_sign crypto SIGNATURE_ALGORITHM data privateKey r = inr signature /\
      crypto_verify crypto SIGNATURE_ALGORITHM data publicKey signature = inr true.

End Script.

(** ** What a run shows *)

(** The events other than console output. *)
Definition is_effect (e : event) : bool :=
  match e with
  | Log _ => false
  | LogError _ => false
  | _ => true
  end.

Definition effects (t : list event) : list event := filter is_effect t.

(** The algorithm identifiers handed to the crypto module. *)
Definition algorithms (t : list event) : list string :=
  flat_map (fun e =>
    match e with
    | SignFinal algorithm _ _ _ => [algorithm]
    | VerifyFinal algorithm _ _ _ _ => [algorithm]
    | _ => []
    end) t.

(** What the signing primitive returned. *)
Definition signatures (t : list event) : list (error + bytes) :=
  flat_map (fun e =>
    match e with
    | SignFinal _ _ _ res => [res]
    | _ => []
    end) t.

(** The texts given to [fs.writeFile]. *)
Definition written (t : list event) : list string :=
  flat_map (fun e =>
    match e with
    | WriteFile _ content _ => [content]
    | _ => []
    end) t.

(** A byte that is an ASCII character. *)
Definition is_ascii (b : byte) : bool := (Byte.to_N b <? 128)%N.

(** The world with other contents in one file. *)
Definition with_file (w : world) (path : string) (content : bytes) : world :=
  {| files := update (files w) path content;
     writable := writable w;
     entropy := entropy w |}.

(** A character that base64 text is made of. *)
Definition base64_text_char (c : ascii) : bool :=
  Ascii.eqb c Base64.pad ||
  match Base64.unbase64 c with
  | Some _ => true
  | None => false
  end.

(** ** A small instance of the crypto module *)

(** Textbook RSA over a two-byte modulus with a toy digest: small enough
    to run, and a scheme in which signing and verification fit.  [crypto]
    does not use its randomness; [salted] does. *)
Module Toy.

(** [b ^ e mod n] by repeated squaring. *)
Fixpoint modexp_pos (b : N) (e : positive) (n : N) : N :=
  match e with
  | xH => b mod n
  | xO e' => let r := modexp_pos b e' n in (r * r) mod n
  | xI e' => let r := modexp_pos b e' n in (r * r * b) mod n
  end%N.

Definition modexp (b e n : N) : N :=
  match e with
  | N0 => (1 mod n)%N
  | Npos p => modexp_pos b p n
  end.

(** Key material: the modulus, then the exponent, two bytes each. *)
Definition parse_key (key : bytes) : option (N * N) :=
  match key with
  | [n1; n0; x1; x0] =>
      Some (256 * Byte.to_N n1 + Byte.to_N n0, 256 * Byte.to_N x1 + Byte.to_N x0)%N
  | _ => None
  end.

Definition digest (data : bytes) : N :=
  fold_left (fun h b => ((h * 31 + Byte.to_N b) mod 65521)%N) data 0%N.

Definition sign_digest (n d h : N) : bytes :=
  let s := modexp (h mod n) d n in
  [byte_of_N (N.shiftr s 8); byte_of_N s].

Definition verify_digest (n e h : N) (signature : bytes) : bool :=
  match signature with
  | [s1; s0] =>
      let s := (256 * Byte.to_N s1 + Byte.to_N s0)%N in
      (s <? n)%N && (modexp s e n =? h mod n)%N
  | _ => false
  end.

Definition sign (algorithm : string) (data key : bytes) (r : N) : error + bytes :=
  if String.eqb algorithm "RSA-SHA256" then
    match parse_key key with
    | Some (n, d) => inr (sign_digest n d (digest data))
    | None => inl KeyParseError
    end
  else inl SigningError.

Definition verify (algorithm : string) (data key signature : bytes) : error + bool :=
  if String.eqb algorithm "RSA-SHA256" then
    match parse_key key with
    | Some (n, e) => inr (verify_digest n e (digest data) signature)
    | None => inl KeyParseError
    end
  else inl SigningError.

Definition crypto : Crypto := {| crypto_sign := sign; crypto_verify := verify |}.

(** The same scheme with a salt, as a probabilistic padding has one: a
    byte drawn from the randomness of the process is signed with the
    data and sent along with the signature. *)
Definition sign_salted (algorithm : string) (data key : bytes) (r : N)
  : error + bytes :=
  if String.eqb algorithm "RSA-SHA256" then
    match parse_key key with
    | Some (n, d) =>
        inr (sign_digest n d (digest (byte_of_N r :: data)) ++ [byte_of_N r])%list
    | None => inl KeyParseError
    end
  else inl SigningError.

Definition verify_salted (algorithm : string) (data key signature : bytes)
  : error + bool :=
  if String.eqb algorithm "RSA-SHA256" then
    match parse_key key with
    | Some (n, e) =>
        match signature with
        | [s1; s0; salt] => inr (verify_digest n e (digest (salt :: data)) [s1; s0])
        | _ => inr false
        end
    | None => inl KeyParseError
    end
  else inl SigningError.

Definition salted : Crypto :=
  {| crypto_sign := sign_salted; crypto_verify := verify_salted |}.

(** The pair n = 3233 = 61 * 53, d = 2753, e = 17. *)
Definition private_key : bytes := [x0c; xa1; x0a; xc1].
Definition public_key : bytes := [x0c; xa1; x00; x11].

(** A directory with a data file and the two keys, where [data.sig] can
    be written and [/proc/data.sig] cannot. *)
Definition disk : world :=
  {| files := fun p =>
       if String.eqb p "data" then Some (list_byte_of_string "hello world")
       else if String.eqb p "key.pem" then Some private_key
       else if String.eqb p "key.crt" then Some public_key
       else None;
     writable := fun p => String.eqb p "data.sig";
     entropy := 0 |}.

End Toy.

(** * Properties *)

(** ** Bytes *)

Lemma all_bytes_complete (b : byte) : In b all_bytes.
Proof.
  assert (H : existsb (Byte.eqb b) all_bytes = true)
    by (destruct b; vm_compute; reflexivity).
  apply existsb_exists in H. destruct H as [x [Hin Heq]].
  apply Byte.byte_dec_bl in Heq. now subst.
Qed.

Lemma forall_bytes (P : byte -> bool) :
  forallb P all_bytes = true -> forall b, P b = true.
Proof.
  intros H b. rewrite forallb_forall in H. apply H, all_bytes_complete.
Qed.

Lemma forall_bytes2 (P : byte -> byte -> bool) :
  forallb (fun a => forallb (P a) all_bytes) all_bytes = true ->
  forall a b, P a b = true.
Proof.
  intros H a b.
  apply (forall_bytes (P a)), (forall_bytes _ H).
Qed.

Lemma forall_below (n : nat) (P : N -> bool) :
  forallb P (below n) = true -> forall k, (k < N.of_nat n)%N -> P k = true.
Proof.
  intros H k Hk. rewrite forallb_forall in H. apply H.
  unfold below. apply in_map_iff. exists (N.to_nat k). split.
  - apply N2Nat.id.
  - apply in_seq. lia.
Qed.

(** ** The base64 codec *)

Section Base64Facts.
Import Base64.

Lemma unbase64_char (n : N) : (n < 64)%N -> unbase64 (base64_char n) = Some n.
Proof.
  intros H.
  assert (E : (match unbase64 (base64_char n) with
               | Some m => N.eqb m n
               | None => false
               end) = true).
  { revert n H. apply (forall_below 64). vm_compute. reflexivity. }
  destruct (unbase64 (base64_char n)); [|discriminate].
  apply N.eqb_eq in E. now subst.
Qed.

Lemma base64_char_not_pad (n : N) :
  (n < 64)%N -> Ascii.eqb (base64_char n) pad = false.
Proof.
  intros H. apply negb_true_iff. revert n H.
  apply (forall_below 64 (fun n => negb (Ascii.eqb (base64_char n) pad))).
  vm_compute. reflexivity.
Qed.

(** Every sextet the encoder looks up is below 64. *)
Lemma enc1_bound (a : byte) : (enc1 (Byte.to_N a) < 64)%N.
Proof.
  apply N.ltb_lt. revert a. apply forall_bytes. vm_compute. reflexivity.
Qed.

Lemma enc2_bound (a b : byte) : (enc2 (Byte.to_N a) (Byte.to_N b) < 64)%N.
Proof.
  apply N.ltb_lt. revert a b.
  apply (forall_bytes2 (fun a b => (enc2 (Byte.to_N a) (Byte.to_N b) <? 64)%N)).
  vm_compute. reflexivity.
Qed.

Lemma enc3_bound (b c : byte) : (enc3 (Byte.to_N b) (Byte.to_N c) < 64)%N.
Proof.
  apply N.ltb_lt. revert b c.
  apply (forall_bytes2 (fun b c => (enc3 (Byte.to_N b) (Byte.to_N c) <? 64)%N)).
  vm_compute. reflexivity.
Qed.

Lemma enc4_bound (c : byte) : (enc4 (Byte.to_N c) < 64)%N.
Proof.
  apply N.ltb_lt. revert c. apply forall_bytes. vm_compute. reflexivity.
Qed.

Lemma tail1_bound (a : byte) : (N.shiftl (N.land (Byte.to_N a) 3) 4 < 64)%N.
Proof.
  apply N.ltb_lt. revert a. apply forall_bytes. vm_compute. reflexivity.
Qed.

Lemma tail2_bound (b : byte) : (N.shiftl (N.land (Byte.to_N b) 15) 2 < 64)%N.
Proof.
  apply N.ltb_lt. revert b. apply forall_bytes. vm_compute. reflexivity.
Qed.

(** The decoder's shifts and masks undo the encoder's, byte by byte. *)
Lemma dec1_enc (a b : byte) :
  dec1 (enc1 (Byte.to_N a)) (enc2 (Byte.to_N a) (Byte.to_N b)) = a.
Proof.
  apply Byte.byte_dec_bl. revert a b.
  apply (forall_bytes2 (fun a b =>
    Byte.eqb (dec1 (enc1 (Byte.to_N a)) (enc2 (Byte.to_N a) (Byte.to_N b))) a)).
  vm_compute. reflexivity.
Qed.

Lemma dec2_high (a b : byte) (lo : N) :
  dec2 (enc2 (Byte.to_N a) (Byte.to_N b)) lo = dec2 (N.shiftr (Byte.to_N b) 4) lo.
Proof.
  unfold dec2. do 3 f_equal.
  apply N.eqb_eq. revert a b.
  apply (forall_bytes2 (fun a b =>
    (N.land (enc2 (Byte.to_N a) (Byte.to_N b)) 15
     =? N.land (N.shiftr (Byte.to_N b) 4) 15)%N)).
  vm_compute. reflexivity.
Qed.

Lemma dec2_enc (a b c : byte) :
  dec2 (enc2 (Byte.to_N a) (Byte.to_N b)) (enc3 (Byte.to_N b) (Byte.to_N c)) = b.
Proof.
  rewrite dec2_high.
  apply Byte.byte_dec_bl. revert b c.
  apply (forall_bytes2 (fun b c =>
    Byte.eqb (dec2 (N.shiftr (Byte.to_N b) 4)
                (enc3 (Byte.to_N b) (Byte.to_N c))) b)).
  vm_compute. reflexivity.
Qed.

Lemma dec3_high (b c : byte) (lo : N) :
  dec3 (enc3 (Byte.to_N b) (Byte.to_N c)) lo = dec3 (N.shiftr (Byte.to_N c) 6) lo.
Proof.
  unfold dec3. do 3 f_equal.
  apply N.eqb_eq. revert b c.
  apply (forall_bytes2 (fun b c =>
    (N.land (enc3 (Byte.to_N b) (Byte.to_N c)) 3
     =? N.land (N.shiftr (Byte.to_N c) 6) 3)%N)).
  vm_compute. reflexivity.
Qed.

Lemma dec3_enc (b c : byte) :
  dec3 (enc3 (Byte.to_N b) (Byte.to_N c)) (enc4 (Byte.to_N c)) = c.
Proof.
  rewrite dec3_high.
  apply Byte.byte_dec_bl. revert c.
  apply (forall_bytes (fun c =>
    Byte.eqb (dec3 (N.shiftr (Byte.to_N c) 6) (enc4 (Byte.to_N c))) c)).
  vm_compute. reflexivity.
Qed.

Lemma dec1_tail (a : byte) :
  dec1 (enc1 (Byte.to_N a)) (N.shiftl (N.land (Byte.to_N a) 3) 4) = a.
Proof.
  apply Byte.byte_dec_bl. revert a.
  apply (forall_bytes (fun a =>
    Byte.eqb (dec1 (enc1 (Byte.to_N a)) (N.shiftl (N.land (Byte.to_N a) 3) 4)) a)).
  vm_compute. reflexivity.
Qed.

Lemma dec2_tail (a b : byte) :
  dec2 (enc2 (Byte.to_N a) (Byte.to_N b)) (N.shiftl (N.land (Byte.to_N b) 15) 2) = b.
Proof.
  rewrite dec2_high.
  apply Byte.byte_dec_bl. revert b.
  apply (forall_bytes (fun b =>
    Byte.eqb (dec2 (N.shiftr (Byte.to_N b) 4)
                (N.shiftl (N.land (Byte.to_N b) 15) 2)) b)).
  vm_compute. reflexivity.
Qed.

(** A character of the alphabet contributes its sextet to the decoder. *)
Lemma sextets_char (n : N) (t : list ascii) :
  (n < 64)%N -> sextets (base64_char n :: t) = n :: sextets t.
Proof.
  intros H. simpl.
  now rewrite (base64_char_not_pad n H), (unbase64_char n H).
Qed.

Lemma sextets_pad (t : list ascii) : sextets (pad :: t) = [].
Proof. reflexivity. Qed.

(** Lists three elements at a time. *)
Lemma list_ind3 (A : Type) (P : list A -> Prop) :
  P [] -> (forall a, P [a]) -> (forall a b, P [a; b]) ->
  (forall a b c l, P l -> P (a :: b :: c :: l)) ->
  forall l, P l.
Proof.
  intros H0 H1 H2 H3.
  assert (H : forall l, P l /\ (forall a, P (a :: l)) /\ (forall a b, P (a :: b :: l))).
  { induction l as [|x l [IH0 [IH1 IH2]]].
    - repeat split; auto.
    - repeat split; auto. }
  intros l. apply H.
Qed.

Lemma decode_sextets_encode_chars (s : bytes) :
  decode_sextets (sextets (encode_chars s)) = s.
Proof.
  induction s as [|a|a b|a b c rest IH] using list_ind3.
  - reflexivity.
  - cbn [encode_chars].
    rewrite (sextets_char _ _ (enc1_bound a)), (sextets_char _ _ (tail1_bound a)).
    rewrite sextets_pad. cbn [decode_sextets]. now rewrite dec1_tail.
  - cbn [encode_chars].
    rewrite (sextets_char _ _ (enc1_bound a)), (sextets_char _ _ (enc2_bound a b)),
      (sextets_char _ _ (tail2_bound b)).
    rewrite sextets_pad. cbn [decode_sextets].
    now rewrite dec1_enc, dec2_tail.
  - cbn [encode_chars].
    rewrite (sextets_char _ _ (enc1_bound a)), (sextets_char _ _ (enc2_bound a b)),
      (sextets_char _ _ (enc3_bound b c)), (sextets_char _ _ (enc4_bound c)).
    cbn [decode_sextets].
    now rewrite dec1_enc, dec2_enc, dec3_enc, IH.
Qed.

(** C3: for every byte sequence [s], decoding the base64 text of [s] gives
    [s] back: [decode (encode s) = s], with [encode] the rendering that
    [sign] writes and [decode] the interpretation [verify] applies. *)
Theorem decode_encode (s : bytes) : decode (encode s) = s.
Proof.
  unfold decode, encode.
  rewrite list_ascii_of_string_of_list_ascii.
  apply decode_sextets_encode_chars.
Qed.

(** The text of an encoding: characters of the alphabet and [=], nothing
    else. *)
Lemma base64_char_text (n : N) : (n < 64)%N -> base64_text_char (base64_char n) = true.
Proof.
  intros H. unfold base64_text_char.
  rewrite (unbase64_char n H). apply orb_true_r.
Qed.

Lemma encode_chars_text (s : bytes) : forallb base64_text_char (encode_chars s) = true.
Proof.
  induction s as [|a|a b|a b c rest IH] using list_ind3.
  - reflexivity.
  - cbn [encode_chars forallb].
    now rewrite (base64_char_text _ (enc1_bound a)), (base64_char_text _ (tail1_bound a)).
  - cbn [encode_chars forallb].
    now rewrite (base64_char_text _ (enc1_bound a)),
      (base64_char_text _ (enc2_bound a b)), (base64_char_text _ (tail2_bound b)).
  - cbn [encode_chars forallb].
    now rewrite (base64_char_text _ (enc1_bound a)),
      (base64_char_text _ (enc2_bound a b)), (base64_char_text _ (enc3_bound b c)),
      (base64_char_text _ (enc4_bound c)), IH.
Qed.

End Base64Facts.

(** ** Text *)

Lemma low_byte_of_byte (b : byte) :
  ascii_of_N (N.land (Byte.to_N b) 255) = ascii_of_byte b.
Proof.
  apply Ascii.eqb_eq. revert b.
  apply (forall_bytes (fun b =>
    Ascii.eqb (ascii_of_N (N.land (Byte.to_N b) 255)) (ascii_of_byte b))).
  vm_compute. reflexivity.
Qed.

(** What the decoder sees of a text: the low bytes of its code units. *)
Lemma Buffer_from_base64_chars (t : text) :
  Buffer_from_base64 t
  = Base64.decode_sextets
      (Base64.sextets (List.map (fun c => ascii_of_N (N.land c 255)) t)).
Proof.
  unfold Buffer_from_base64, Base64.decode, low_bytes.
  now rewrite list_ascii_of_string_of_list_ascii.
Qed.

Lemma utf8_first_ascii (b : byte) :
  is_ascii b = true -> utf8_first (Byte.to_N b) = ([Byte.to_N b], Utf8_start).
Proof.
  unfold is_ascii, utf8_first. intros H. apply N.ltb_lt in H.
  destruct (N.leb_spec (Byte.to_N b) 127); [reflexivity|lia].
Qed.

(** An ASCII byte ends whatever came before it and stands for itself. *)
Lemma utf8_step_ascii (st : utf8_state) (b : byte) (rest : bytes) :
  is_ascii b = true ->
  utf8_code_points st (b :: rest)
  = (utf8_code_points st [] ++ Byte.to_N b :: utf8_code_points Utf8_start rest)%list.
Proof.
  intros H. cbn [utf8_code_points].
  destruct st as [|needed cp r]; cbn [utf8_step].
  - now rewrite (utf8_first_ascii b H).
  - rewrite (utf8_first_ascii b H).
    assert (Hlow : (range_lower r <=? Byte.to_N b)%N = false).
    { unfold is_ascii in H. apply N.ltb_lt in H. apply N.leb_gt.
      destruct r; cbn [range_lower]; lia. }
    now rewrite Hlow.
Qed.

Lemma utf8_code_points_ascii_byte (st : utf8_state) (s rest : bytes) (b : byte) :
  is_ascii b = true ->
  utf8_code_points st (s ++ b :: rest)%list
  = (utf8_code_points st s ++ Byte.to_N b :: utf8_code_points Utf8_start rest)%list.
Proof.
  intros H. revert st.
  induction s as [|x s IH]; intros st.
  - apply (utf8_step_ascii st b rest H).
  - cbn [app utf8_code_points]. now rewrite IH, app_assoc.
Qed.

Lemma utf16_ascii (b : byte) : is_ascii b = true -> utf16 (Byte.to_N b) = [Byte.to_N b].
Proof.
  unfold is_ascii, utf16. intros H. apply N.ltb_lt in H.
  destruct (N.ltb_spec (Byte.to_N b) 65536); [reflexivity|lia].
Qed.

Lemma utf8_decode_ascii_byte (s rest : bytes) (b : byte) :
  is_ascii b = true ->
  utf8_decode (s ++ b :: rest)%list
  = (utf8_decode s ++ Byte.to_N b :: utf8_decode rest)%list.
Proof.
  intros H. unfold utf8_decode.
  rewrite (utf8_code_points_ascii_byte _ _ _ _ H), flat_map_app.
  cbn [flat_map]. now rewrite (utf16_ascii b H).
Qed.

(** ASCII bytes at the start of a file are its first characters. *)
Lemma utf8_decode_ascii_prefix (s rest : bytes) :
  forallb is_ascii s = true ->
  utf8_decode (s ++ rest)%list = (List.map Byte.to_N s ++ utf8_decode rest)%list.
Proof.
  induction s as [|b s IH]; [reflexivity|].
  cbn [forallb]. intros H. apply andb_true_iff in H. destruct H as [Hb Hs].
  change ((b :: s) ++ rest)%list with ([] ++ b :: (s ++ rest))%list.
  rewrite (utf8_decode_ascii_byte [] (s ++ rest)%list b Hb).
  cbn [app List.map]. now rewrite (IH Hs).
Qed.

Lemma utf8_decode_ascii (s : bytes) :
  forallb is_ascii s = true -> utf8_decode s = List.map Byte.to_N s.
Proof.
  intros H. rewrite <- (app_nil_r s) at 1.
  rewrite (utf8_decode_ascii_prefix s [] H). apply app_nil_r.
Qed.

Lemma base64_text_char_ascii (c : ascii) :
  base64_text_char c = true -> is_ascii (byte_of_ascii c) = true.
Proof.
  rewrite <- (ascii_of_byte_of_ascii c) at 1.
  generalize (byte_of_ascii c). clear c. intros b H.
  assert (E : implb (base64_text_char (ascii_of_byte b)) (is_ascii b) = true).
  { revert b H. intros b _. revert b.
    apply (forall_bytes (fun b =>
      implb (base64_text_char (ascii_of_byte b)) (is_ascii b))).
    vm_compute. reflexivity. }
  now rewrite H in E.
Qed.

Lemma encode_bytes_ascii (s : bytes) :
  forallb is_ascii (list_byte_of_string (Base64.encode s)) = true.
Proof.
  unfold list_byte_of_string, Base64.encode.
  rewrite list_ascii_of_string_of_list_ascii.
  pose proof (encode_chars_text s) as H.
  induction (Base64.encode_chars s) as [|c l IH]; [reflexivity|].
  cbn [forallb List.map] in *. apply andb_true_iff in H. destruct H as [Hc Hl].
  now rewrite (base64_text_char_ascii c Hc), (IH Hl).
Qed.

(** The text [sign] writes, read back as UTF-8 and handed over as base64,
    is the signature again. *)
Lemma read_back_encoding (s : bytes) :
  Buffer_from_base64 (utf8_decode (list_byte_of_string (Base64.encode s))) = s.
Proof.
  rewrite (utf8_decode_ascii _ (encode_bytes_ascii s)), Buffer_from_base64_chars.
  rewrite map_map.
  rewrite (map_ext _ ascii_of_byte low_byte_of_byte).
  unfold list_byte_of_string, Base64.encode.
  rewrite list_ascii_of_string_of_list_ascii, map_map.
  rewrite (map_ext _ (fun c => c) ascii_of_byte_of_ascii), map_id.
  apply decode_sextets_encode_chars.
Qed.

(** ** Running the script *)

Lemma result_bind (A B : Type) (m : M A) (k : A -> M B) (w : world) :
  result (bind m k w) =
  match result (m w) with
  | Returned a => result (k a (final (m w)))
  | Exited code => Exited code
  | Thrown e => Thrown e
  end.
Proof. unfold bind. now destruct (result (m w)). Qed.

Lemma final_bind (A B : Type) (m : M A) (k : A -> M B) (w : world) :
  final (bind m k w) =
  match result (m w) with
  | Returned a => final (k a (final (m w)))
  | _ => final (m w)
  end.
Proof. unfold bind. now destruct (result (m w)). Qed.

Lemma trace_bind (A B : Type) (m : M A) (k : A -> M B) (w : world) :
  trace (bind m k w) =
  match result (m w) with
  | Returned a => (trace (m w) ++ trace (k a (final (m w))))%list
  | _ => trace (m w)
  end.
Proof. unfold bind. now destruct (result (m w)). Qed.

(** One step of the script: split a sequence, run a service, look a file
    up. *)
Ltac run_step :=
  first
    [ rewrite result_bind
    | rewrite final_bind
    | rewrite trace_bind
    | progress cbv beta iota zeta delta
        [ret emit console_log process_exit handleError fs_readFile
         fs_readFile_utf8 fs_writeFile Sign_sign Verify_verify_base64
         createSign Sign_update createVerify Verify_update Buffer_binary
         sign_algorithm sign_data verify_algorithm verify_data]
    | progress cbn [result final trace files writable entropy app
                    effects filter is_effect]
    | match goal with
      | H : files ?w ?p = _ |- context [files ?w ?p] => rewrite H
      | H : writable ?w ?p = _ |- context [writable ?w ?p] => rewrite H
      | H : crypto_sign _ _ _ _ _ = _ |- _ => rewrite H
      | H : crypto_verify _ _ _ _ _ = _ |- _ => rewrite H
      end ].

Ltac run := repeat run_step.

Section ScriptFacts.

Variable crypto : Crypto.

(** How [verify] ends, by what it finds. *)
Lemma verify_result (w : world) (dataPath signaturePath publicKeyPath : string) :
  result (verify crypto dataPath signaturePath publicKeyPath w) =
  match files w dataPath, files w signaturePath, files w publicKeyPath with
  | Some data, Some signature, Some publicKey =>
      match crypto_verify crypto SIGNATURE_ALGORITHM data publicKey
              (Buffer_from_base64 (utf8_decode signature)) with
      | inl e => Thrown e
      | inr valid => Exited (if valid then 0 else -1)
      end
  | _, _, _ => Exited (-1)
  end.
Proof.
  unfold verify.
  destruct (files w dataPath) as [data|] eqn:Hd; [|now run].
  destruct (files w signaturePath) as [signature|] eqn:Hs; [|now run].
  destruct (files w publicKeyPath) as [publicKey|] eqn:Hp; [|now run].
  destruct (crypto_verify crypto SIGNATURE_ALGORITHM data publicKey
              (Buffer_from_base64 (utf8_decode signature))) eqn:Hv;
    now run.
Qed.

(** How [sign] ends, by what it finds. *)
Lemma sign_result (w : world) (dataPath privateKeyPath signaturePath : string) :
  result (sign crypto dataPath privateKeyPath signaturePath w) =
  match files w dataPath, files w privateKeyPath with
  | Some data, Some privateKey =>
      match crypto_sign crypto SIGNATURE_ALGORITHM data privateKey (entropy w) with
      | inl e => Thrown e
      | inr _ => Returned tt
      end
  | _, _ => Exited (-1)
  end.
Proof.
  unfold sign.
  destruct (files w dataPath) as [data|] eqn:Hd; [|now run].
  destruct (files w privateKeyPath) as [privateKey|] eqn:Hk; [|now run].
  destruct (crypto_sign crypto SIGNATURE_ALGORITHM data privateKey (entropy w)) eqn:Hs;
    [now run|].
  destruct (writable w signaturePath) eqn:Hw; now run.
Qed.

(** What [sign] does, by what it finds: it reads the data, then the key,
    then signs, then writes. *)
Lemma sign_effects (w : world) (dataPath privateKeyPath signaturePath : string) :
  effects (trace (sign crypto dataPath privateKeyPath signaturePath w)) =
  match files w dataPath with
  | None => [ReadFile dataPath (Some (IOError dataPath))]
  | Some data =>
      match files w privateKeyPath with
      | None =>
          [ReadFile dataPath None;
           ReadFile privateKeyPath (Some (IOError privateKeyPath))]
      | Some privateKey =>
          let res := crypto_sign crypto SIGNATURE_ALGORITHM data privateKey
                       (entropy w) in
          ReadFile dataPath None :: ReadFile privateKeyPath None
            :: SignFinal SIGNATURE_ALGORITHM data privateKey res
            :: match res with
               | inl _ => []
               | inr signature =>
                   [WriteFile signaturePath (Base64.encode signature)
                      (if writable w signaturePath then None
                       else Some (IOError signaturePath))]
               end
      end
  end.
Proof.
  unfold sign.
  destruct (files w dataPath) as [data|] eqn:Hd; [|now run].
  destruct (files w privateKeyPath) as [privateKey|] eqn:Hk; [|now run].
  destruct (crypto_sign crypto SIGNATURE_ALGORITHM data privateKey (entropy w)) eqn:Hs;
    [now run|].
  destruct (writable w signaturePath) eqn:Hw; now run.
Qed.

(** What [verify] does, by what it finds. *)
Lemma verify_effects (w : world) (dataPath signaturePath publicKeyPath : string) :
  effects (trace (verify crypto dataPath signaturePath publicKeyPath w)) =
  match files w dataPath with
  | None => [ReadFile dataPath (Some (IOError dataPath))]
  | Some data =>
      match files w signaturePath with
      | None =>
          [ReadFile dataPath None;
           ReadFile signaturePath (Some (IOError signaturePath))]
      | Some signature =>
          match files w publicKeyPath with
          | None =>
              [ReadFile dataPath None; ReadFile signaturePath None;
               ReadFile publicKeyPath (Some (IOError publicKeyPath))]
          | Some publicKey =>
              [ReadFile dataPath None; ReadFile signaturePath None;
               ReadFile publicKeyPath None;
               VerifyFinal SIGNATURE_ALGORITHM data publicKey
                 (utf8_decode signature)
                 (crypto_verify crypto SIGNATURE_ALGORITHM data publicKey
                    (Buffer_from_base64 (utf8_decode signature)))]
          end
      end
  end.
Proof.
  unfold verify.
  destruct (files w dataPath) as [data|] eqn:Hd; [|now run].
  destruct (files w signaturePath) as [signature|] eqn:Hs; [|now run].
  destruct (files w publicKeyPath) as [publicKey|] eqn:Hp; [|now run].
  destruct (crypto_verify crypto SIGNATURE_ALGORITHM data publicKey
              (Buffer_from_base64 (utf8_decode signature))) eqn:Hv;
    now run.
Qed.

(** The world [sign] leaves: the signature file holds the base64 text
    when all went well, and nothing has changed otherwise. *)
Lemma sign_final (w : world) (dataPath privateKeyPath signaturePath : string) :
  final (sign crypto dataPath privateKeyPath signaturePath w) =
  match files w dataPath, files w privateKeyPath with
  | Some data, Some privateKey =>
      match crypto_sign crypto SIGNATURE_ALGORITHM data privateKey (entropy w) with
      | inr signature =>
          if writable w signaturePath
          then with_file w signaturePath
                 (list_byte_of_string (Base64.encode signature))
          else w
      | inl _ => w
      end
  | _, _ => w
  end.
Proof.
  unfold sign.
  destruct (files w dataPath) as [data|] eqn:Hd; [|now run].
  destruct (files w privateKeyPath) as [privateKey|] eqn:Hk; [|now run].
  destruct (crypto_sign crypto SIGNATURE_ALGORITHM data privateKey (entropy w)) eqn:Hs;
    [now run|].
  destruct (writable w signaturePath) eqn:Hw; now run.
Qed.

End ScriptFacts.

(** ** Observations *)

(** Console output carries no algorithm, signature or file text. *)
Lemma algorithms_effects (t : list event) : algorithms (effects t) = algorithms t.
Proof.
  induction t as [|e t IH]; [reflexivity|].
  destruct e; cbn [effects filter is_effect algorithms flat_map app];
    try (f_equal; exact IH); exact IH.
Qed.

Lemma signatures_effects (t : list event) : signatures (effects t) = signatures t.
Proof.
  induction t as [|e t IH]; [reflexivity|].
  destruct e; cbn [effects filter is_effect signatures flat_map app];
    try (f_equal; exact IH); exact IH.
Qed.

Lemma written_effects (t : list event) : written (effects t) = written t.
Proof.
  induction t as [|e t IH]; [reflexivity|].
  destruct e; cbn [effects filter is_effect written flat_map app];
    try (f_equal; exact IH); exact IH.
Qed.

(** The command line: the third argument selects the function. *)
Lemma processArgs_sign (crypto : Crypto) (node script a b c : string) :
  processArgs crypto [node; script; "sign"; a; b; c] = sign crypto a b c.
Proof. reflexivity. Qed.

Lemma processArgs_verify (crypto : Crypto) (node script a b c : string) :
  processArgs crypto [node; script; "verify"; a; b; c] = verify crypto a b c.
Proof. reflexivity. Qed.

(** ** Files *)

Lemma files_with_file_same (w : world) (path : string) (content : bytes) :
  files (with_file w path content) path = Some content.
Proof. cbn [with_file files]. unfold update. now rewrite String.eqb_refl. Qed.

Lemma files_with_file_other (w : world) (path other : string) (content : bytes) :
  path <> other -> files (with_file w path content) other = files w other.
Proof.
  intros H. cbn [with_file files]. unfold update.
  apply String.eqb_neq in H. now rewrite H.
Qed.

(** ** The small instance *)

Section ToyFacts.
Import Toy.

Lemma sign_digest_mod (h : N) :
  sign_digest 3233 2753 h = sign_digest 3233 2753 (h mod 3233).
Proof. unfold sign_digest. now rewrite N.Div0.mod_mod. Qed.

Lemma verify_digest_mod (h : N) (signature : bytes) :
  verify_digest 3233 17 h signature = verify_digest 3233 17 (h mod 3233) signature.
Proof.
  unfold verify_digest. destruct signature as [|s1 [|s0 [|]]]; try reflexivity.
  now rewrite N.Div0.mod_mod.
Qed.

(** Raising to the power 2753 and then to the power 17 is the identity
    modulo 3233. *)
Lemma verify_sign_digest (h : N) :
  verify_digest 3233 17 h (sign_digest 3233 2753 h) = true.
Proof.
  rewrite sign_digest_mod, verify_digest_mod.
  assert (Hh : (h mod 3233 < N.of_nat 3233)%N) by (apply N.mod_lt; discriminate).
  revert Hh. generalize (h mod 3233)%N. clear h.
  apply (forall_below 3233
           (fun m => verify_digest 3233 17 m (sign_digest 3233 2753 m))).
  vm_compute. reflexivity.
Qed.

Lemma toy_key_pair : key_pair crypto private_key public_key.
Proof.
  intros data r. exists (sign_digest 3233 2753 (digest data)). split.
  - reflexivity.
  - change (inr (verify_digest 3233 17 (digest data)
                   (sign_digest 3233 2753 (digest data))) = inr true :> error + bool).
    now rewrite verify_sign_digest.
Qed.

End ToyFacts.

(** ** Signing and verifying *)

(** C1: for every key pair and every data (the empty buffer too), after
    [sign] has signed the data file with the private key, [verify] run on
    the same data, the signature file [sign] wrote and the public key finds
    the signature valid: it ends in [process.exit(0)]. *)
Theorem sign_then_verify (crypto : Crypto) (w : world)
    (dataPath privateKeyPath signaturePath publicKeyPath : string)
    (data privateKey publicKey : bytes) :
  files w dataPath = Some data ->
  files w privateKeyPath = Some privateKey ->
  files w publicKeyPath = Some publicKey ->
  writable w signaturePath = true ->
  signaturePath <> dataPath ->
  signaturePath <> publicKeyPath ->
  key_pair crypto privateKey publicKey ->
  result (sign crypto dataPath privateKeyPath signaturePath w) = Returned tt /\
  result (verify crypto dataPath signaturePath publicKeyPath
            (final (sign crypto dataPath privateKeyPath signaturePath w)))
  = Exited 0.
Proof.
  intros Hd Hk Hp Hw Hsd Hsp Hpair.
  destruct (Hpair data (entropy w)) as [signature [Hsign Hverify]].
  rewrite sign_result, verify_result, sign_final, Hd, Hk, Hsign, Hw.
  split; [reflexivity|].
  rewrite (files_with_file_other _ _ _ _ Hsd), (files_with_file_other _ _ _ _ Hsp),
    files_with_file_same, Hd, Hp.
  rewrite read_back_encoding, Hverify.
  reflexivity.
Qed.

Lemma sign_then_verify_witness :
  (files Toy.disk "data" = Some (list_byte_of_string "hello world") /\
   files Toy.disk "key.pem" = Some Toy.private_key /\
   files Toy.disk "key.crt" = Some Toy.public_key /\
   writable Toy.disk "data.sig" = true /\
   key_pair Toy.crypto Toy.private_key Toy.public_key) /\
  result (sign Toy.crypto "data" "key.pem" "data.sig" Toy.disk) = Returned tt /\
  result (verify Toy.crypto "data" "data.sig" "key.crt"
            (final (sign Toy.crypto "data" "key.pem" "data.sig" Toy.disk)))
  = Exited 0.
Proof.
  split.
  - repeat split; try reflexivity. apply toy_key_pair.
  - apply (sign_then_verify Toy.crypto Toy.disk "data" "key.pem" "data.sig" "key.crt"
             (list_byte_of_string "hello world") Toy.private_key Toy.public_key).
    + reflexivity.
    + reflexivity.
    + reflexivity.
    + reflexivity.
    + discriminate.
    + discriminate.
    + apply toy_key_pair.
Defined.

(** ** Exit status of [verify] *)

(** C4: the [verify] command ends with status 0 exactly when the three
    files could be read and the verification primitive returned [true];
    whatever else happens (a file cannot be read, the primitive returns
    [false], the primitive throws) the status is 255 or 1, not 0. *)
Theorem verify_exit_status (crypto : Crypto) (w : world)
    (node script dataPath signaturePath publicKeyPath : string) :
  (exit_status
     (result (processArgs crypto
                [node; script; "verify"; dataPath; signaturePath; publicKeyPath] w))
   = 0%Z <->
   exists data signature publicKey,
     files w dataPath = Some data /\
     files w signaturePath = Some signature /\
     files w publicKeyPath = Some publicKey /\
     crypto_verify crypto SIGNATURE_ALGORITHM data publicKey
       (Buffer_from_base64 (utf8_decode signature)) = inr true) /\
  (exit_status
     (result (processArgs crypto
                [node; script; "verify"; dataPath; signaturePath; publicKeyPath] w))
   = 0%Z \/
   exit_status
     (result (processArgs crypto
                [node; script; "verify"; dataPath; signaturePath; publicKeyPath] w))
   = 255%Z \/
   exit_status
     (result (processArgs crypto
                [node; script; "verify"; dataPath; signaturePath; publicKeyPath] w))
   = 1%Z).
Proof.
  rewrite processArgs_verify, verify_result.
  destruct (files w dataPath) as [data|].
  2: { split; [|now right; left].
       split; [discriminate|]. intros [? [? [? [H _]]]]. discriminate. }
  destruct (files w signaturePath) as [signature|].
  2: { split; [|now right; left].
       split; [discriminate|]. intros [? [? [? [_ [H _]]]]]. discriminate. }
  destruct (files w publicKeyPath) as [publicKey|].
  2: { split; [|now right; left].
       split; [discriminate|]. intros [? [? [? [_ [_ [H _]]]]]]. discriminate. }
  destruct (crypto_verify crypto SIGNATURE_ALGORITHM data publicKey
              (Buffer_from_base64 (utf8_decode signature))) as [e|[|]] eqn:Hv.
  - split; [|now right; right].
    split; [discriminate|].
    intros [d [s [p [Hd [Hs [Hp H]]]]]].
    injection Hd as <-. injection Hs as <-. injection Hp as <-. congruence.
  - split; [|now left].
    split; [|reflexivity].
    intros _. exists data, signature, publicKey. repeat split. exact Hv.
  - split; [|now right; left].
    split; [discriminate|].
    intros [d [s [p [Hd [Hs [Hp H]]]]]].
    injection Hd as <-. injection Hs as <-. injection Hp as <-. congruence.
Qed.

(** ** The algorithm identifier *)

(** C6: whatever the files hold, the identifier [sign] hands to the
    signing primitive and the identifier [verify] hands to the
    verification primitive are the one constant [SIGNATURE_ALGORITHM]
    (each run reaches its primitive once, when its files can be read, and
    not at all otherwise); and the text [sign] writes is the encoding of
    the signature bytes alone. *)
Theorem one_algorithm (crypto : Crypto) (w w' : world)
    (dataPath privateKeyPath signaturePath : string)
    (dataPath' signaturePath' publicKeyPath' : string) :
  algorithms (trace (sign crypto dataPath privateKeyPath signaturePath w)) =
  match files w dataPath, files w privateKeyPath with
  | Some _, Some _ => [SIGNATURE_ALGORITHM]
  | _, _ => []
  end /\
  algorithms (trace (verify crypto dataPath' signaturePath' publicKeyPath' w')) =
  match files w' dataPath', files w' signaturePath', files w' publicKeyPath' with
  | Some _, Some _, Some _ => [SIGNATURE_ALGORITHM]
  | _, _, _ => []
  end /\
  written (trace (sign crypto dataPath privateKeyPath signaturePath w)) =
  match files w dataPath, files w privateKeyPath with
  | Some data, Some privateKey =>
      match crypto_sign crypto SIGNATURE_ALGORITHM data privateKey (entropy w) with
      | inr signature => [Base64.encode signature]
      | inl _ => []
      end
  | _, _ => []
  end.
Proof.
  rewrite <- (algorithms_effects (trace (sign _ _ _ _ _))),
    <- (algorithms_effects (trace (verify _ _ _ _ _))),
    <- (written_effects (trace (sign _ _ _ _ _))), sign_effects, verify_effects.
  repeat split.
  - destruct (files w dataPath) as [data|]; [|reflexivity].
    destruct (files w privateKeyPath) as [privateKey|]; [|reflexivity].
    cbv zeta.
    destruct (crypto_sign crypto SIGNATURE_ALGORITHM data privateKey (entropy w));
      reflexivity.
  - destruct (files w' dataPath'); [|reflexivity].
    destruct (files w' signaturePath'); [|reflexivity].
    destruct (files w' publicKeyPath'); reflexivity.
  - destruct (files w dataPath) as [data|]; [|reflexivity].
    destruct (files w privateKeyPath) as [privateKey|]; [|reflexivity].
    cbv zeta.
    destruct (crypto_sign crypto SIGNATURE_ALGORITHM data privateKey (entropy w));
      reflexivity.
Qed.

(** ** The signature file *)

(** C7: when [sign] has read its files, the primitive has returned a
    signature and the file can be written, the signature file holds
    exactly the bytes of the base64 text of the signature: that text is
    the only thing [sign] writes, and it consists of characters of the
    base64 alphabet and [=] padding only (no line end, no header). *)
Theorem signature_file_contents (crypto : Crypto) (w : world)
    (dataPath privateKeyPath signaturePath : string)
    (data privateKey signature : bytes) :
  files w dataPath = Some data ->
  files w privateKeyPath = Some privateKey ->
  crypto_sign crypto SIGNATURE_ALGORITHM data privateKey (entropy w) = inr signature ->
  writable w signaturePath = true ->
  files (final (sign crypto dataPath privateKeyPath signaturePath w)) signaturePath
  = Some (list_byte_of_string (Base64.encode signature)) /\
  written (trace (sign crypto dataPath privateKeyPath signaturePath w))
  = [Base64.encode signature] /\
  forallb base64_text_char (list_ascii_of_string (Base64.encode signature)) = true.
Proof.
  intros Hd Hk Hs Hw. repeat split.
  - rewrite sign_final, Hd, Hk, Hs, Hw. apply files_with_file_same.
  - rewrite <- (written_effects (trace (sign _ _ _ _ _))), sign_effects, Hd, Hk.
    cbv zeta. now rewrite Hs.
  - unfold Base64.encode. rewrite list_ascii_of_string_of_list_ascii.
    apply encode_chars_text.
Qed.

Lemma signature_file_contents_witness :
  (files Toy.disk "data" = Some (list_byte_of_string "hello world") /\
   files Toy.disk "key.pem" = Some Toy.private_key /\
   crypto_sign Toy.crypto SIGNATURE_ALGORITHM (list_byte_of_string "hello world")
     Toy.private_key (entropy Toy.disk) = inr [x08; xa1] /\
   writable Toy.disk "data.sig" = true) /\
  files (final (sign Toy.crypto "data" "key.pem" "data.sig" Toy.disk)) "data.sig"
  = Some (list_byte_of_string (Base64.encode [x08; xa1])) /\
  written (trace (sign Toy.crypto "data" "key.pem" "data.sig" Toy.disk))
  = [Base64.encode [x08; xa1]] /\
  forallb base64_text_char (list_ascii_of_string (Base64.encode [x08; xa1])) = true.
Proof.
  split.
  - repeat split; reflexivity.
  - apply (signature_file_contents Toy.crypto Toy.disk "data" "key.pem" "data.sig"
             (list_byte_of_string "hello world") Toy.private_key [x08; xa1]);
      reflexivity.
Defined.

(** ** Exit status of [sign] *)

(** How [sign] ends does not depend on whether the signature file could
    be written. *)
Lemma sign_exit_status (crypto : Crypto) (w : world)
    (dataPath privateKeyPath signaturePath : string) :
  exit_status (result (sign crypto dataPath privateKeyPath signaturePath w)) = 0%Z <->
  exists data privateKey signature,
    files w dataPath = Some data /\
    files w privateKeyPath = Some privateKey /\
    crypto_sign crypto SIGNATURE_ALGORITHM data privateKey (entropy w) = inr signature.
Proof.
  rewrite sign_result.
  destruct (files w dataPath) as [data|].
  2: { split; [discriminate|]. intros [? [? [? [H _]]]]. discriminate. }
  destruct (files w privateKeyPath) as [privateKey|].
  2: { split; [discriminate|]. intros [? [? [? [_ [H _]]]]]. discriminate. }
  destruct (crypto_sign crypto SIGNATURE_ALGORITHM data privateKey (entropy w))
    as [e|signature] eqn:Hs.
  - split; [discriminate|].
    intros [d [k [s [Hd [Hk H]]]]].
    injection Hd as <-. injection Hk as <-. congruence.
  - split; [|reflexivity].
    intros _. now exists data, privateKey, signature.
Qed.

(** C8, where the code departs from it: asked to write the signature to
    [/proc/data.sig], which cannot be written, [sign] gets the error from
    [fs.writeFile], prints that the signature was saved and ends with
    status 0; no file has been written. *)
Theorem sign_unwritable_exits_zero :
  exit_status
    (result (processArgs Toy.crypto
               ["node"; "signature.js"; "sign"; "data"; "key.pem"; "/proc/data.sig"]
               Toy.disk))
  = 0%Z /\
  effects
    (trace (processArgs Toy.crypto
              ["node"; "signature.js"; "sign"; "data"; "key.pem"; "/proc/data.sig"]
              Toy.disk))
  = [ReadFile "data" None; ReadFile "key.pem" None;
     SignFinal "RSA-SHA256" (list_byte_of_string "hello world") Toy.private_key
       (inr [x08; xa1]);
     WriteFile "/proc/data.sig" "CKE=" (Some (IOError "/proc/data.sig"))] /\
  last
    (trace (processArgs Toy.crypto
              ["node"; "signature.js"; "sign"; "data"; "key.pem"; "/proc/data.sig"]
              Toy.disk))
    (Log "")
  = Log "Base64 Signature saved to '/proc/data.sig'" /\
  files
    (final (processArgs Toy.crypto
              ["node"; "signature.js"; "sign"; "data"; "key.pem"; "/proc/data.sig"]
              Toy.disk))
    "/proc/data.sig"
  = None.
Proof. vm_compute. repeat split. Qed.

(** ** The order of the steps *)

(** C9: in every run of [sign] the steps come in one order: the data file
    is read; if that worked the key file is read; if that worked too the
    signature is computed, from the contents the two reads delivered; and
    only then is anything written.  A run is a prefix of this sequence,
    cut where a step fails. *)
Theorem sign_order (crypto : Crypto) (w : world)
    (dataPath privateKeyPath signaturePath : string) :
  effects (trace (sign crypto dataPath privateKeyPath signaturePath w))
  = [ReadFile dataPath (Some (IOError dataPath))]
  \/
  (exists data,
     files w dataPath = Some data /\
     (effects (trace (sign crypto dataPath privateKeyPath signaturePath w))
      = [ReadFile dataPath None;
         ReadFile privateKeyPath (Some (IOError privateKeyPath))]
      \/
      exists privateKey,
        files w privateKeyPath = Some privateKey /\
        ((exists e,
            effects (trace (sign crypto dataPath privateKeyPath signaturePath w))
            = [ReadFile dataPath None; ReadFile privateKeyPath None;
               SignFinal SIGNATURE_ALGORITHM data privateKey (inl e)])
         \/
         (exists signature err,
            effects (trace (sign crypto dataPath privateKeyPath signaturePath w))
            = [ReadFile dataPath None; ReadFile privateKeyPath None;
               SignFinal SIGNATURE_ALGORITHM data privateKey (inr signature);
               WriteFile signaturePath (Base64.encode signature) err])))).
Proof.
  rewrite sign_effects.
  destruct (files w dataPath) as [data|]; [right|now left].
  exists data. split; [reflexivity|].
  destruct (files w privateKeyPath) as [privateKey|]; [right|now left].
  exists privateKey. split; [reflexivity|]. cbv zeta.
  destruct (crypto_sign crypto SIGNATURE_ALGORITHM data privateKey (entropy w))
    as [e|signature].
  - left. now exists e.
  - right. now eexists _, _.
Qed.

(** ** Determinism *)

(** C10, as stated, fails: the scheme is the primitive's, chosen by the
    key, and may draw on the randomness of the process.  With a scheme
    that signs a salt along with the data, two runs of [sign] over the
    same data and the same private key get different signature bytes
    when the randomness differs, and [verify] accepts both. *)
Lemma sign_salted_differs :
  signatures (trace (sign Toy.salted "data" "key.pem" "data.sig" Toy.disk))
  = [inr [x08; xa1; x00]] /\
  signatures
    (trace (sign Toy.salted "data" "key.pem" "data.sig"
              {| files := files Toy.disk; writable := writable Toy.disk;
                 entropy := 1 |}))
  = [inr [x00; x0a; x01]] /\
  result (verify Toy.salted "data" "data.sig" "key.crt"
            (final (sign Toy.salted "data" "key.pem" "data.sig" Toy.disk)))
  = Exited 0 /\
  result (verify Toy.salted "data" "data.sig" "key.crt"
            (final (sign Toy.salted "data" "key.pem" "data.sig"
                      {| files := files Toy.disk; writable := writable Toy.disk;
                         entropy := 1 |})))
  = Exited 0.
Proof. vm_compute. repeat split. Qed.

(** C10, amended: in each of two runs of [sign] that read the same data
    and the same private key, under whatever paths and in whatever
    surroundings, the signature is what the primitive returns for the
    fixed identifier, that data, that key and the randomness of that run,
    and nothing else enters; so the two runs get identical signature
    bytes, and write identical text, whenever the primitive answers the
    two alike, as it does for a key it signs without randomness (RSA with
    PKCS#1 v1.5 padding). *)
Theorem sign_same_inputs_same_signature (crypto : Crypto) (w1 w2 : world)
    (dataPath1 privateKeyPath1 signaturePath1 : string)
    (dataPath2 privateKeyPath2 signaturePath2 : string)
    (data privateKey : bytes) :
  files w1 dataPath1 = Some data ->
  files w2 dataPath2 = Some data ->
  files w1 privateKeyPath1 = Some privateKey ->
  files w2 privateKeyPath2 = Some privateKey ->
  signatures (trace (sign crypto dataPath1 privateKeyPath1 signaturePath1 w1))
  = [crypto_sign crypto SIGNATURE_ALGORITHM data privateKey (entropy w1)] /\
  signatures (trace (sign crypto dataPath2 privateKeyPath2 signaturePath2 w2))
  = [crypto_sign crypto SIGNATURE_ALGORITHM data privateKey (entropy w2)] /\
  (crypto_sign crypto SIGNATURE_ALGORITHM data privateKey (entropy w1)
   = crypto_sign crypto SIGNATURE_ALGORITHM data privateKey (entropy w2) ->
   signatures (trace (sign crypto dataPath1 privateKeyPath1 signaturePath1 w1))
   = signatures (trace (sign crypto dataPath2 privateKeyPath2 signaturePath2 w2)) /\
   written (trace (sign crypto dataPath1 privateKeyPath1 signaturePath1 w1))
   = written (trace (sign crypto dataPath2 privateKeyPath2 signaturePath2 w2))).
Proof.
  intros Hd1 Hd2 Hk1 Hk2.
  rewrite <- (signatures_effects (trace (sign _ _ _ _ w1))),
    <- (signatures_effects (trace (sign _ _ _ _ w2))),
    <- (written_effects (trace (sign _ _ _ _ w1))),
    <- (written_effects (trace (sign _ _ _ _ w2))), !sign_effects.
  rewrite Hd1, Hd2, Hk1, Hk2. cbv zeta.
  repeat split.
  - now destruct (crypto_sign crypto SIGNATURE_ALGORITHM data privateKey (entropy w1)).
  - now destruct (crypto_sign crypto SIGNATURE_ALGORITHM data privateKey (entropy w2)).
  - rewrite <- H.
    now destruct (crypto_sign crypto SIGNATURE_ALGORITHM data privateKey (entropy w1)).
  - rewrite <- H.
    now destruct (crypto_sign crypto SIGNATURE_ALGORITHM data privateKey (entropy w1)).
Qed.

Lemma sign_same_inputs_same_signature_witness :
  (files Toy.disk "data" = Some (list_byte_of_string "hello world") /\
   files (with_file (with_file Toy.disk "copy" (list_byte_of_string "hello world"))
            "id_rsa" Toy.private_key) "copy"
   = Some (list_byte_of_string "hello world") /\
   files Toy.disk "key.pem" = Some Toy.private_key /\
   files (with_file (with_file Toy.disk "copy" (list_byte_of_string "hello world"))
            "id_rsa" Toy.private_key) "id_rsa"
   = Some Toy.private_key) /\
  signatures (trace (sign Toy.crypto "data" "key.pem" "data.sig" Toy.disk))
  = [crypto_sign Toy.crypto SIGNATURE_ALGORITHM (list_byte_of_string "hello world")
       Toy.private_key (entropy Toy.disk)] /\
  signatures
    (trace (sign Toy.crypto "copy" "id_rsa" "copy.sig"
              (with_file (with_file Toy.disk "copy"
                            (list_byte_of_string "hello world"))
                 "id_rsa" Toy.private_key)))
  = [crypto_sign Toy.crypto SIGNATURE_ALGORITHM (list_byte_of_string "hello world")
       Toy.private_key
       (entropy (with_file (with_file Toy.disk "copy"
                              (list_byte_of_string "hello world"))
                   "id_rsa" Toy.private_key))] /\
  (crypto_sign Toy.crypto SIGNATURE_ALGORITHM (list_byte_of_string "hello world")
     Toy.private_key (entropy Toy.disk)
   = crypto_sign Toy.crypto SIGNATURE_ALGORITHM (list_byte_of_string "hello world")
       Toy.private_key
       (entropy (with_file (with_file Toy.disk "copy"
                              (list_byte_of_string "hello world"))
                   "id_rsa" Toy.private_key)) ->
   signatures (trace (sign Toy.crypto "data" "key.pem" "data.sig" Toy.disk))
   = signatures
       (trace (sign Toy.crypto "copy" "id_rsa" "copy.sig"
                 (with_file (with_file Toy.disk "copy"
                               (list_byte_of_string "hello world"))
                    "id_rsa" Toy.private_key))) /\
   written (trace (sign Toy.crypto "data" "key.pem" "data.sig" Toy.disk))
   = written
       (trace (sign Toy.crypto "copy" "id_rsa" "copy.sig"
                 (with_file (with_file Toy.disk "copy"
                               (list_byte_of_string "hello world"))
                    "id_rsa" Toy.private_key)))).
Proof.
  split.
  - repeat split; reflexivity.
  - apply (sign_same_inputs_same_signature Toy.crypto Toy.disk
             (with_file (with_file Toy.disk "copy" (list_byte_of_string "hello world"))
                "id_rsa" Toy.private_key)
             "data" "key.pem" "data.sig" "copy" "id_rsa" "copy.sig"
             (list_byte_of_string "hello world") Toy.private_key); reflexivity.
Defined.

(** * Further properties of the script *)

(** ** The decoder on text that is not an encoding *)

(** Whatever follows the first [=] is not read. *)
Lemma sextets_after_pad (t u : list ascii) :
  Base64.sextets (t ++ Base64.pad :: u) = Base64.sextets t.
Proof.
  induction t as [|c t IH]; [reflexivity|].
  cbn [app Base64.sextets].
  destruct (Ascii.eqb c Base64.pad); [reflexivity|].
  destruct (Base64.unbase64 c); now rewrite IH.
Qed.


(** The bytes [verify] hands to the primitive for a signature file. *)
Lemma decoded_after_pad (signature rest : bytes) :
  Buffer_from_base64 (utf8_decode (signature ++ x3d :: rest)%list)
  = Buffer_from_base64 (utf8_decode signature).
Proof.
  rewrite (utf8_decode_ascii_byte signature rest x3d eq_refl).
  rewrite !Buffer_from_base64_chars, map_app. cbn [List.map].
  change (ascii_of_N (N.land (Byte.to_N x3d) 255)) with Base64.pad.
  now rewrite sextets_after_pad.
Qed.


Lemma length_string_of_list_ascii (l : list ascii) :
  String.length (string_of_list_ascii l) = List.length l.
Proof. induction l as [|c l IH]; [reflexivity|]. cbn. now rewrite IH. Qed.

Lemma encode_chars_length (s : bytes) :
  List.length (Base64.encode_chars s) = (4 * ((List.length s + 2) / 3))%nat.
Proof.
  induction s as [|a|a b|a b c rest IH] using list_ind3; try reflexivity.
  cbn [Base64.encode_chars List.length]. rewrite IH.
  replace (S (S (S (List.length rest))) + 2)%nat
    with (List.length rest + 2 + 1 * 3)%nat by lia.
  rewrite Nat.div_add by discriminate. lia.
Qed.

(** ** The runs in full *)

Lemma verify_final (crypto : Crypto) (w : world)
    (dataPath signaturePath publicKeyPath : string) :
  final (verify crypto dataPath signaturePath publicKeyPath w) = w.
Proof.
  unfold verify.
  destruct (files w dataPath) as [data|] eqn:Hd; [|now run].
  destruct (files w signaturePath) as [signature|] eqn:Hs; [|now run].
  destruct (files w publicKeyPath) as [publicKey|] eqn:Hp; [|now run].
  destruct (crypto_verify crypto SIGNATURE_ALGORITHM data publicKey
              (Buffer_from_base64 (utf8_decode signature))) eqn:Hv;
    now run.
Qed.

(** The command line that selects neither function. *)
Lemma processArgs_usage (crypto : Crypto) (argv : list string) :
  ~ (List.length argv = 6%nat /\
     (List.nth 2 argv "" = "sign" \/ List.nth 2 argv "" = "verify")) ->
  processArgs crypto argv = usage.
Proof.
  intros H. unfold processArgs.
  destruct (List.length argv =? 6)%nat eqn:Hlen; [|reflexivity].
  apply Nat.eqb_eq in Hlen. cbn [andb].
  destruct (String.eqb (List.nth 2 argv "") "sign") eqn:Hsign.
  { apply String.eqb_eq in Hsign. exfalso. apply H. now split; [|left]. }
  destruct (String.eqb (List.nth 2 argv "") "verify") eqn:Hverify.
  { apply String.eqb_eq in Hverify. exfalso. apply H. now split; [|right]. }
  reflexivity.
Qed.

(** ** The command line *)

(** X1: called with anything but six arguments of which the third is
    [sign] or [verify], the script prints its three usage lines, touches
    no file, calls no primitive and exits with -1 (status 255). *)
Theorem usage_on_other_arguments (crypto : Crypto) (w : world) (argv : list string) :
  ~ (List.length argv = 6%nat /\
     (List.nth 2 argv "" = "sign" \/ List.nth 2 argv "" = "verify")) ->
  trace (processArgs crypto argv w)
  = [Log "Usage:";
     Log "  node signature.js sign   [data file] [private key file] [signature output file]";
     Log "  node signature.js verify [data file] [signature file] [public key file]"] /\
  final (processArgs crypto argv w) = w /\
  result (processArgs crypto argv w) = Exited (-1) /\
  exit_status (result (processArgs crypto argv w)) = 255%Z.
Proof.
  intros H. rewrite (processArgs_usage crypto argv H). repeat split.
Qed.

Lemma usage_on_other_arguments_witness :
  ~ (List.length ["node"; "signature.js"; "sign"; "data"; "key.pem"] = 6%nat /\
     (List.nth 2 ["node"; "signature.js"; "sign"; "data"; "key.pem"] "" = "sign" \/
      List.nth 2 ["node"; "signature.js"; "sign"; "data"; "key.pem"] "" = "verify")) /\
  trace (processArgs Toy.crypto ["node"; "signature.js"; "sign"; "data"; "key.pem"]
           Toy.disk)
  = [Log "Usage:";
     Log "  node signature.js sign   [data file] [private key file] [signature output file]";
     Log "  node signature.js verify [data file] [signature file] [public key file]"] /\
  final (processArgs Toy.crypto ["node"; "signature.js"; "sign"; "data"; "key.pem"]
           Toy.disk) = Toy.disk /\
  result (processArgs Toy.crypto ["node"; "signature.js"; "sign"; "data"; "key.pem"]
            Toy.disk) = Exited (-1) /\
  exit_status
    (result (processArgs Toy.crypto ["node"; "signature.js"; "sign"; "data"; "key.pem"]
               Toy.disk)) = 255%Z.
Proof.
  assert (H : ~ (List.length ["node"; "signature.js"; "sign"; "data"; "key.pem"] = 6%nat /\
     (List.nth 2 ["node"; "signature.js"; "sign"; "data"; "key.pem"] "" = "sign" \/
      List.nth 2 ["node"; "signature.js"; "sign"; "data"; "key.pem"] "" = "verify")))
    by (intros [Hlen _]; discriminate).
  split; [exact H|].
  exact (usage_on_other_arguments Toy.crypto Toy.disk
           ["node"; "signature.js"; "sign"; "data"; "key.pem"] H).
Defined.

(** ** What [verify] does and does not do *)

(** X3: [verify] only reads: in every run it writes nothing and leaves
    the files, and the rest of its surroundings, as they were. *)
Theorem verify_read_only (crypto : Crypto) (w : world)
    (dataPath signaturePath publicKeyPath : string) :
  final (verify crypto dataPath signaturePath publicKeyPath w) = w /\
  written (trace (verify crypto dataPath signaturePath publicKeyPath w)) = [] /\
  signatures (trace (verify crypto dataPath signaturePath publicKeyPath w)) = [].
Proof.
  rewrite verify_final,
    <- (written_effects (trace (verify _ _ _ _ _))),
    <- (signatures_effects (trace (verify _ _ _ _ _))), verify_effects.
  repeat split.
  - destruct (files w dataPath); [|reflexivity].
    destruct (files w signaturePath); [|reflexivity].
    destruct (files w publicKeyPath); reflexivity.
  - destruct (files w dataPath); [|reflexivity].
    destruct (files w signaturePath); [|reflexivity].
    destruct (files w publicKeyPath); reflexivity.
Qed.

(** X4: every run of [verify] takes its steps in one order: the data file
    is read, then the signature file, then the public key file, and only
    when all three were read is the primitive called, once, with the
    contents the reads delivered and the text of the signature file as it
    is.  A run is a prefix of this sequence, cut at the first read that
    fails. *)
Theorem verify_order (crypto : Crypto) (w : world)
    (dataPath signaturePath publicKeyPath : string) :
  effects (trace (verify crypto dataPath signaturePath publicKeyPath w))
  = [ReadFile dataPath (Some (IOError dataPath))]
  \/
  (exists data,
     files w dataPath = Some data /\
     (effects (trace (verify crypto dataPath signaturePath publicKeyPath w))
      = [ReadFile dataPath None;
         ReadFile signaturePath (Some (IOError signaturePath))]
      \/
      exists signature,
        files w signaturePath = Some signature /\
        (effects (trace (verify crypto dataPath signaturePath publicKeyPath w))
         = [ReadFile dataPath None; ReadFile signaturePath None;
            ReadFile publicKeyPath (Some (IOError publicKeyPath))]
         \/
         exists publicKey,
           files w publicKeyPath = Some publicKey /\
           effects (trace (verify crypto dataPath signaturePath publicKeyPath w))
           = [ReadFile dataPath None; ReadFile signaturePath None;
              ReadFile publicKeyPath None;
              VerifyFinal SIGNATURE_ALGORITHM data publicKey
                (utf8_decode signature)
                (crypto_verify crypto SIGNATURE_ALGORITHM data publicKey
                   (Buffer_from_base64 (utf8_decode signature)))]))).
Proof.
  rewrite verify_effects.
  destruct (files w dataPath) as [data|]; [right|now left].
  exists data. split; [reflexivity|].
  destruct (files w signaturePath) as [signature|]; [right|now left].
  exists signature. split; [reflexivity|].
  destruct (files w publicKeyPath) as [publicKey|]; [right|now left].
  now exists publicKey.
Qed.

(** X5: when one of its three files cannot be read, [verify] exits with
    -1 (status 255) without calling the primitive. *)
Theorem verify_read_failure (crypto : Crypto) (w : world)
    (dataPath signaturePath publicKeyPath : string) :
  files w dataPath = None \/ files w signaturePath = None \/
  files w publicKeyPath = None ->
  result (verify crypto dataPath signaturePath publicKeyPath w) = Exited (-1) /\
  exit_status (result (verify crypto dataPath signaturePath publicKeyPath w)) = 255%Z /\
  algorithms (trace (verify crypto dataPath signaturePath publicKeyPath w)) = [].
Proof.
  intros H.
  rewrite <- (algorithms_effects (trace (verify _ _ _ _ _))), verify_result,
    verify_effects.
  destruct (files w dataPath); [|now repeat split].
  destruct (files w signaturePath); [|now repeat split].
  destruct (files w publicKeyPath); [|now repeat split].
  destruct H as [H|[H|H]]; discriminate.
Qed.

Lemma verify_read_failure_witness :
  (files Toy.disk "data" = None \/ files Toy.disk "data.sig" = None \/
   files Toy.disk "key.crt" = None) /\
  result (verify Toy.crypto "data" "data.sig" "key.crt" Toy.disk) = Exited (-1) /\
  exit_status (result (verify Toy.crypto "data" "data.sig" "key.crt" Toy.disk))
  = 255%Z /\
  algorithms (trace (verify Toy.crypto "data" "data.sig" "key.crt" Toy.disk)) = [].
Proof.
  split.
  - right. left. reflexivity.
  - apply (verify_read_failure Toy.crypto Toy.disk "data" "data.sig" "key.crt").
    right. left. reflexivity.
Defined.

(** X7: when the three files are read and the primitive returns a
    boolean, the last line [verify] prints is the verdict, and the exit
    status agrees with it: 0 after [Signature valid? true], 255 after
    [Signature valid? false]. *)
Theorem verify_prints_verdict (crypto : Crypto) (w : world)
    (dataPath signaturePath publicKeyPath : string)
    (data signature publicKey : bytes) (valid : bool) :
  files w dataPath = Some data ->
  files w signaturePath = Some signature ->
  files w publicKeyPath = Some publicKey ->
  crypto_verify crypto SIGNATURE_ALGORITHM data publicKey
    (Buffer_from_base64 (utf8_decode signature)) = inr valid ->
  last (trace (verify crypto dataPath signaturePath publicKeyPath w)) (Log "")
  = Log ("Signature valid? " ++ show_bool valid) /\
  exit_status (result (verify crypto dataPath signaturePath publicKeyPath w))
  = (if valid then 0 else 255)%Z.
Proof.
  intros Hd Hs Hp Hv. split.
  - unfold verify. run. reflexivity.
  - rewrite verify_result, Hd, Hs, Hp, Hv. now destruct valid.
Qed.

Lemma verify_prints_verdict_witness :
  (files (with_file Toy.disk "data.sig" (list_byte_of_string "AAAA")) "data"
   = Some (list_byte_of_string "hello world") /\
   files (with_file Toy.disk "data.sig" (list_byte_of_string "AAAA")) "data.sig"
   = Some (list_byte_of_string "AAAA") /\
   files (with_file Toy.disk "data.sig" (list_byte_of_string "AAAA")) "key.crt"
   = Some Toy.public_key /\
   crypto_verify Toy.crypto SIGNATURE_ALGORITHM (list_byte_of_string "hello world")
     Toy.public_key
     (Buffer_from_base64 (utf8_decode (list_byte_of_string "AAAA")))
   = inr false) /\
  last (trace (verify Toy.crypto "data" "data.sig" "key.crt"
                 (with_file Toy.disk "data.sig" (list_byte_of_string "AAAA"))))
    (Log "")
  = Log ("Signature valid? " ++ show_bool false) /\
  exit_status
    (result (verify Toy.crypto "data" "data.sig" "key.crt"
               (with_file Toy.disk "data.sig" (list_byte_of_string "AAAA"))))
  = (if false then 0 else 255)%Z.
Proof.
  split.
  - repeat split; reflexivity.
  - apply (verify_prints_verdict Toy.crypto
             (with_file Toy.disk "data.sig" (list_byte_of_string "AAAA"))
             "data" "data.sig" "key.crt"
             (list_byte_of_string "hello world") (list_byte_of_string "AAAA")
             Toy.public_key false); reflexivity.
Defined.

(** ** What [sign] does and does not do *)

(** X8: when the data file or the key file cannot be read, [sign] exits
    with -1 (status 255); it has not called the primitive, has written
    nothing, and the files are as before. *)
Theorem sign_read_failure (crypto : Crypto) (w : world)
    (dataPath privateKeyPath signaturePath : string) :
  files w dataPath = None \/ files w privateKeyPath = None ->
  result (sign crypto dataPath privateKeyPath signaturePath w) = Exited (-1) /\
  exit_status (result (sign crypto dataPath privateKeyPath signaturePath w)) = 255%Z /\
  algorithms (trace (sign crypto dataPath privateKeyPath signaturePath w)) = [] /\
  written (trace (sign crypto dataPath privateKeyPath signaturePath w)) = [] /\
  final (sign crypto dataPath privateKeyPath signaturePath w) = w.
Proof.
  intros H.
  rewrite <- (algorithms_effects (trace (sign _ _ _ _ _))),
    <- (written_effects (trace (sign _ _ _ _ _))), sign_result, sign_final,
    sign_effects.
  destruct (files w dataPath); [|now repeat split].
  destruct (files w privateKeyPath); [|now repeat split].
  destruct H as [H|H]; discriminate.
Qed.

Lemma sign_read_failure_witness :
  (files Toy.disk "data" = None \/ files Toy.disk "id_rsa" = None) /\
  result (sign Toy.crypto "data" "id_rsa" "data.sig" Toy.disk) = Exited (-1) /\
  exit_status (result (sign Toy.crypto "data" "id_rsa" "data.sig" Toy.disk))
  = 255%Z /\
  algorithms (trace (sign Toy.crypto "data" "id_rsa" "data.sig" Toy.disk)) = [] /\
  written (trace (sign Toy.crypto "data" "id_rsa" "data.sig" Toy.disk)) = [] /\
  final (sign Toy.crypto "data" "id_rsa" "data.sig" Toy.disk) = Toy.disk.
Proof.
  split.
  - right. reflexivity.
  - apply (sign_read_failure Toy.crypto Toy.disk "data" "id_rsa" "data.sig").
    right. reflexivity.
Defined.

(** X9: [sign] changes no file but the signature file: every other path
    reads as before, in every run; and when the primitive throws, or the
    write fails, the signature file too is as before. *)
Theorem sign_frame (crypto : Crypto) (w : world)
    (dataPath privateKeyPath signaturePath other : string) :
  other <> signaturePath ->
  files (final (sign crypto dataPath privateKeyPath signaturePath w)) other
  = files w other /\
  (written (trace (sign crypto dataPath privateKeyPath signaturePath w)) = [] \/
   writable w signaturePath = false ->
   final (sign crypto dataPath privateKeyPath signaturePath w) = w).
Proof.
  intros Hother.
  rewrite <- (written_effects (trace (sign _ _ _ _ _))), sign_final, sign_effects.
  destruct (files w dataPath) as [data|]; [|now split].
  destruct (files w privateKeyPath) as [privateKey|]; [|now split].
  cbv zeta.
  destruct (crypto_sign crypto SIGNATURE_ALGORITHM data privateKey (entropy w));
    [now split|].
  destruct (writable w signaturePath); [|now split].
  split.
  - apply files_with_file_other. congruence.
  - intros [H|H]; discriminate.
Qed.

Lemma sign_frame_witness :
  "data" <> "data.sig" /\
  files (final (sign Toy.crypto "data" "key.pem" "data.sig" Toy.disk)) "data"
  = files Toy.disk "data" /\
  (written (trace (sign Toy.crypto "data" "key.pem" "data.sig" Toy.disk)) = [] \/
   writable Toy.disk "data.sig" = false ->
   final (sign Toy.crypto "data" "key.pem" "data.sig" Toy.disk) = Toy.disk).
Proof.
  assert (H : "data" <> "data.sig") by discriminate.
  split; [exact H|].
  exact (sign_frame Toy.crypto Toy.disk "data" "key.pem" "data.sig" "data" H).
Defined.

(** X10: the exit status of [sign] is 255 exactly when the data file or
    the key file cannot be read, 1 exactly when both are read and the
    primitive throws, and 0 exactly when both are read and the primitive
    returns a signature; whether the signature file could be written
    plays no part. *)
Theorem sign_exit_cases (crypto : Crypto) (w : world)
    (dataPath privateKeyPath signaturePath : string) :
  (exit_status (result (sign crypto dataPath privateKeyPath signaturePath w)) = 255%Z
   <-> files w dataPath = None \/ files w privateKeyPath = None) /\
  (exit_status (result (sign crypto dataPath privateKeyPath signaturePath w)) = 1%Z
   <-> exists data privateKey e,
         files w dataPath = Some data /\
         files w privateKeyPath = Some privateKey /\
         crypto_sign crypto SIGNATURE_ALGORITHM data privateKey (entropy w) = inl e) /\
  (exit_status (result (sign crypto dataPath privateKeyPath signaturePath w)) = 0%Z
   <-> exists data privateKey signature,
         files w dataPath = Some data /\
         files w privateKeyPath = Some privateKey /\
         crypto_sign crypto SIGNATURE_ALGORITHM data privateKey (entropy w)
         = inr signature).
Proof.
  rewrite sign_result.
  destruct (files w dataPath) as [data|].
  2: { repeat split; try discriminate; auto.
       - intros [? [? [? [H _]]]]. discriminate.
       - intros [? [? [? [H _]]]]. discriminate. }
  destruct (files w privateKeyPath) as [privateKey|].
  2: { repeat split; try discriminate; auto.
       - intros [? [? [? [_ [H _]]]]]. discriminate.
       - intros [? [? [? [_ [H _]]]]]. discriminate. }
  destruct (crypto_sign crypto SIGNATURE_ALGORITHM data privateKey (entropy w))
    as [e|signature] eqn:Hs.
  - repeat split; try discriminate.
    + intros [H|H]; discriminate.
    + intros _. now exists data, privateKey, e.
    + intros [d [k [s [Hd [Hk H]]]]].
      injection Hd as <-. injection Hk as <-. congruence.
  - repeat split; try discriminate.
    + intros [H|H]; discriminate.
    + intros [d [k [e [Hd [Hk H]]]]].
      injection Hd as <-. injection Hk as <-. congruence.
    + intros _. now exists data, privateKey, signature.
Qed.

(** X11: once [sign] has read the private key it prints the key's bytes,
    in hexadecimal, to the console (and the data's before them), whether
    or not the signing then succeeds. *)
Theorem sign_prints_private_key (crypto : Crypto) (w : world)
    (dataPath privateKeyPath signaturePath : string) (data privateKey : bytes) :
  files w dataPath = Some data ->
  files w privateKeyPath = Some privateKey ->
  In (Log (hex privateKey ++ " " ++ LF))
    (trace (sign crypto dataPath privateKeyPath signaturePath w)) /\
  In (Log (hex data ++ " " ++ LF))
    (trace (sign crypto dataPath privateKeyPath signaturePath w)).
Proof.
  intros Hd Hk. unfold sign.
  destruct (crypto_sign crypto SIGNATURE_ALGORITHM data privateKey (entropy w)) eqn:Hs.
  - run. split.
    + do 7 right. left. reflexivity.
    + do 5 right. left. reflexivity.
  - destruct (writable w signaturePath) eqn:Hw; run; split.
    + do 7 right. left. reflexivity.
    + do 5 right. left. reflexivity.
    + do 7 right. left. reflexivity.
    + do 5 right. left. reflexivity.
Qed.

Lemma sign_prints_private_key_witness :
  (files Toy.disk "data" = Some (list_byte_of_string "hello world") /\
   files Toy.disk "key.pem" = Some Toy.private_key) /\
  In (Log (hex Toy.private_key ++ " " ++ LF))
    (trace (sign Toy.crypto "data" "key.pem" "data.sig" Toy.disk)) /\
  In (Log (hex (list_byte_of_string "hello world") ++ " " ++ LF))
    (trace (sign Toy.crypto "data" "key.pem" "data.sig" Toy.disk)).
Proof.
  split.
  - split; reflexivity.
  - apply (sign_prints_private_key Toy.crypto Toy.disk "data" "key.pem" "data.sig"
             (list_byte_of_string "hello world") Toy.private_key); reflexivity.
Defined.

(** ** Signature files that are not what [sign] wrote *)

(** X12: [verify] does not read the signature file past its first [=]
    byte: whatever bytes follow it, well-formed text or not, the answer
    is the same as without them. *)
Theorem verify_ignores_text_after_padding (crypto : Crypto) (w : world)
    (dataPath signaturePath publicKeyPath : string) (signature rest : bytes) :
  signaturePath <> dataPath ->
  signaturePath <> publicKeyPath ->
  result (verify crypto dataPath signaturePath publicKeyPath
            (with_file w signaturePath (signature ++ x3d :: rest)%list))
  = result (verify crypto dataPath signaturePath publicKeyPath
              (with_file w signaturePath signature)).
Proof.
  intros Hsd Hsp.
  rewrite !verify_result,
    !(files_with_file_other _ _ _ _ Hsd), !(files_with_file_other _ _ _ _ Hsp),
    !files_with_file_same, decoded_after_pad.
  reflexivity.
Qed.

Lemma verify_ignores_text_after_padding_witness :
  ("data.sig" <> "data" /\ "data.sig" <> "key.crt") /\
  result (verify Toy.crypto "data" "data.sig" "key.crt"
            (with_file Toy.disk "data.sig"
               (list_byte_of_string "CKE" ++ x3d :: [xc5; x81; x0a])%list))
  = result (verify Toy.crypto "data" "data.sig" "key.crt"
              (with_file Toy.disk "data.sig" (list_byte_of_string "CKE"))).
Proof.
  split.
  - split; discriminate.
  - apply (verify_ignores_text_after_padding Toy.crypto Toy.disk
             "data" "data.sig" "key.crt"
             (list_byte_of_string "CKE") [xc5; x81; x0a]);
      discriminate.
Defined.



(** X14: the text [sign] writes for a signature of [n] bytes has
    [4 * ceil (n / 3)] characters: four for every three bytes, a last
    group of one or two bytes filled up with [=]. *)
Theorem encode_length (s : bytes) :
  String.length (Base64.encode s) = (4 * ((List.length s + 2) / 3))%nat.
Proof.
  unfold Base64.encode.
  rewrite length_string_of_list_ascii. apply encode_chars_length.
Qed.

(** X15: [sign] does not keep its output apart from its input: given the
    path of the data file as the place for the signature, a successful
    run leaves the base64 text of the signature where the data was. *)
Theorem sign_overwrites_data (crypto : Crypto) (w : world)
    (dataPath privateKeyPath : string) (data privateKey signature : bytes) :
  files w dataPath = Some data ->
  files w privateKeyPath = Some privateKey ->
  crypto_sign crypto SIGNATURE_ALGORITHM data privateKey (entropy w) = inr signature ->
  writable w dataPath = true ->
  result (sign crypto dataPath privateKeyPath dataPath w) = Returned tt /\
  files (final (sign crypto dataPath privateKeyPath dataPath w)) dataPath
  = Some (list_byte_of_string (Base64.encode signature)).
Proof.
  intros Hd Hk Hs Hw.
  rewrite sign_result, sign_final, Hd, Hk, Hs, Hw.
  split; [reflexivity|]. apply files_with_file_same.
Qed.

Lemma sign_overwrites_data_witness :
  (files {| files := files Toy.disk; writable := fun _ => true; entropy := 0 |} "data"
   = Some (list_byte_of_string "hello world") /\
   files {| files := files Toy.disk; writable := fun _ => true; entropy := 0 |} "key.pem"
   = Some Toy.private_key /\
   crypto_sign Toy.crypto SIGNATURE_ALGORITHM (list_byte_of_string "hello world")
     Toy.private_key 0 = inr [x08; xa1] /\
   writable {| files := files Toy.disk; writable := fun _ => true; entropy := 0 |} "data"
   = true) /\
  result (sign Toy.crypto "data" "key.pem" "data"
            {| files := files Toy.disk; writable := fun _ => true; entropy := 0 |})
  = Returned tt /\
  files (final (sign Toy.crypto "data" "key.pem" "data"
                  {| files := files Toy.disk; writable := fun _ => true; entropy := 0 |}))
    "data"
  = Some (list_byte_of_string (Base64.encode [x08; xa1])).
Proof.
  split.
  - repeat split; reflexivity.
  - apply (sign_overwrites_data Toy.crypto
             {| files := files Toy.disk; writable := fun _ => true; entropy := 0 |}
             "data" "key.pem" (list_byte_of_string "hello world") Toy.private_key
             [x08; xa1]); reflexivity.
Defined.
